(** * Nicolas Cage Filmography Explorer: the data pipeline of [app_V2.py]

    A shallow embedding of the filtering and aggregation pipeline of
    [src/sauvegardes/app_V2.py] (lines 6-63 and the aggregates of lines
    68-171), followed by the properties the specification states about it.

    Modelling conventions.
    - A pandas column is a list of cells, a frame a list of rows.  A cell
      of [option] type is [None] exactly when pandas holds NaN there.
    - The columns Title, Genre, Director, Cast and Poster hold text or
      NaN; Rating and Duration hold finite numbers or NaN; a Year cell is
      NaN, a finite number, an infinity, or text when the reader could
      not parse the column.  A text column without any text is read as
      float64, on which the [.str] accessor raises.
    - Text is a [string] of bytes holding the UTF-8 encoding of a Python
      [str].  Python's [strip], [in], [split] and [int] are written out
      on it, with the white space and the decimal digits of Unicode.
    - A finite float64 is modelled by the rational it denotes ([Q]);
      order and equality of ratings are those of the rationals.  The
      one float64 computation with rounding, the mean, is kept
      unevaluated.
    - Integers of the frame are int64.
    - The patterns 'Nicolas Cage' and ', ' hold no regular expression
      metacharacter, so that [str.contains] and [str.split] search them
      literally.
    - A Python exception is a value [Raise e] of the [result] type, and
      the statements of the script are sequenced with [bind], so that the
      first statement that raises decides the outcome.
    - The widgets of the sidebar are parameters of the script: functions
      that return the user's pick or raise.
    - pandas sorts ([value_counts], [nlargest], [groupby], [sort_index])
      are modelled by a stable insertion sort: rows with equal keys keep
      the order they had in the input ([keep='first']). *)

From Stdlib Require Import List String Ascii Bool Arith ZArith QArith Qround Lia.
From Stdlib Require Import Qabs DecimalString.
From Stdlib Require Import Permutation Sorted.
Import ListNotations.

Local Open Scope string_scope.
Local Open Scope list_scope.
Local Open Scope nat_scope.

(* ================================================================== *)
(** * Exceptions *)

Inductive exn : Type :=
| ValueError
| TypeError
| AttributeError
| OverflowError
| StreamlitAPIException.

Inductive result (A : Type) : Type :=
| Ok (a : A)
| Raise (e : exn).

Arguments Ok {A} a.
Arguments Raise {A} e.

Definition bind {A B : Type} (m : result A) (k : A -> result B) : result B :=
  match m with
  | Ok a => k a
  | Raise e => Raise e
  end.

Notation "x <- m ;; k" := (bind m (fun x => k))
  (at level 61, m at next level, right associativity).

(** A function applied to every cell of a column, in order; the first
    cell on which it raises aborts the whole column operation. *)
Fixpoint mapM {A B : Type} (f : A -> result B) (l : list A) : result (list B) :=
  match l with
  | [] => Ok []
  | x :: t => y <- f x ;; ys <- mapM f t ;; Ok (y :: ys)
  end.

(* ================================================================== *)
(** * Python strings *)

Module PyStr.

(** Text is held in UTF-8.  [chars s] lists the characters of [s], each
    with its code point and the bytes that encode it; a byte that opens
    no well-formed sequence is listed alone, under a number that is no
    code point. *)
Definition byte (c : ascii) : N := N_of_ascii c.

Definition continuation (c : ascii) : bool :=
  ((128 <=? byte c) && (byte c <? 192))%N.

Definition stray (c : ascii) : N * string :=
  ((1114112 + byte c)%N, String c EmptyString).

Fixpoint chars (s : string) : list (N * string) :=
  match s with
  | EmptyString => []
  | String b0 r0 =>
      if (byte b0 <? 128)%N then (byte b0, String b0 EmptyString) :: chars r0
      else
        match r0 with
        | String b1 r1 =>
            if continuation b1 then
              if ((192 <=? byte b0) && (byte b0 <? 224))%N then
                (((byte b0 - 192) * 64 + (byte b1 - 128))%N,
                 String b0 (String b1 EmptyString)) :: chars r1
              else
                match r1 with
                | String b2 r2 =>
                    if continuation b2 then
                      if ((224 <=? byte b0) && (byte b0 <? 240))%N then
                        ((((byte b0 - 224) * 64 + (byte b1 - 128)) * 64
                          + (byte b2 - 128))%N,
                         String b0 (String b1 (String b2 EmptyString)))
                          :: chars r2
                      else
                        match r2 with
                        | String b3 r3 =>
                            if (continuation b3
                                && ((240 <=? byte b0) && (byte b0 <? 248))%N)%bool
                            then
                              (((((byte b0 - 240) * 64 + (byte b1 - 128)) * 64
                                 + (byte b2 - 128)) * 64 + (byte b3 - 128))%N,
                               String b0 (String b1 (String b2 (String b3 EmptyString))))
                                :: chars r3
                            else stray b0 :: chars r0
                        | EmptyString => stray b0 :: chars r0
                        end
                    else stray b0 :: chars r0
                | EmptyString => stray b0 :: chars r0
                end
            else stray b0 :: chars r0
        | EmptyString => stray b0 :: chars r0
        end
  end.

(** The bytes of a list of characters. *)
Definition text (cs : list (N * string)) : string :=
  String.concat EmptyString (map snd cs).

(** [str.isspace] on one character: TAB..CR, FS..US, space, U+0085,
    U+00A0, U+1680, U+2000..U+200A, U+2028, U+2029, U+202F, U+205F and
    U+3000. *)
Definition isspace (cp : N) : bool :=
  (((9 <=? cp) && (cp <=? 13)) || ((28 <=? cp) && (cp <=? 32))
   || (cp =? 133) || (cp =? 160) || (cp =? 5760)
   || ((8192 <=? cp) && (cp <=? 8202))
   || (cp =? 8232) || (cp =? 8233) || (cp =? 8239) || (cp =? 8287)
   || (cp =? 12288))%N.

Fixpoint drop_spaces (cs : list (N * string)) : list (N * string) :=
  match cs with
  | [] => []
  | (cp, _) :: t => if isspace cp then drop_spaces t else cs
  end.

Definition lstrip (s : string) : string := text (drop_spaces (chars s)).

Definition rstrip (s : string) : string :=
  text (rev (drop_spaces (rev (chars s)))).

(** [s.strip()] *)
Definition strip (s : string) : string :=
  text (rev (drop_spaces (rev (drop_spaces (chars s))))).

(** [s.startswith(p)] *)
Fixpoint startswith (p s : string) : bool :=
  match p, s with
  | EmptyString, _ => true
  | String _ _, EmptyString => false
  | String a p', String b s' => Ascii.eqb a b && startswith p' s'
  end.

(** [k in s]: [k] occurs in [s] as a contiguous run of characters. *)
Fixpoint contains (k s : string) : bool :=
  startswith k s ||
  match s with
  | EmptyString => false
  | String _ s' => contains k s'
  end.

(** [s.split(sep)] for a non-empty separator, scanning left to right;
    [skip] counts the characters of a separator just matched that are
    still to be passed over.  The head of the result is the token under
    construction. *)
Fixpoint split_from (sep : string) (skip : nat) (s : string) : list string :=
  match s with
  | EmptyString => [EmptyString]
  | String c s' =>
      match skip with
      | S k => split_from sep k s'
      | O =>
          if startswith sep s
          then EmptyString :: split_from sep (String.length sep - 1) s'
          else match split_from sep 0 s' with
               | t :: ts => String c t :: ts
               | [] => [String c EmptyString]
               end
      end
  end.

Definition split (sep s : string) : list string := split_from sep 0 s.

(** The code points of the digit zero of every decimal digit script of
    Unicode 14.0; the nine code points after each are the digits one to
    nine. *)
Definition zeros : list N :=
  [ 48; 1632; 1776; 1984; 2406; 2534; 2662; 2790; 2918; 3046; 3174;
    3302; 3430; 3558; 3664; 3792; 3872; 4160; 4240; 6112; 6160; 6470;
    6608; 6784; 6800; 6992; 7088; 7232; 7248; 42528; 43216; 43264;
    43472; 43504; 43600; 44016; 65296; 66720; 68912; 69734; 69872;
    69942; 70096; 70384; 70736; 70864; 71248; 71360; 71472; 71904;
    72016; 72784; 73040; 73120; 92768; 92864; 93008; 120782; 120792;
    120802; 120812; 120822; 123200; 123632; 125264; 130032 ]%N.

(** The digit value of a decimal digit, in any script. *)
Definition decimal (cp : N) : option N :=
  option_map (fun z => cp - z)%N
             (find (fun z => (z <=? cp) && (cp <=? z + 9))%N zeros).

(** What [int] first makes of its argument: an ASCII character is kept,
    any other white space becomes a space and any other decimal digit
    its ASCII digit; any other character makes the literal invalid. *)
Fixpoint to_ascii (cs : list (N * string)) : option (list N) :=
  match cs with
  | [] => Some []
  | (cp, _) :: t =>
      let head :=
        if (cp <? 127)%N then Some cp
        else if isspace cp then Some 32%N
             else option_map (fun d => 48 + d)%N (decimal cp) in
      match head, to_ascii t with
      | Some h, Some r => Some (h :: r)
      | _, _ => None
      end
  end.

(** White space for the parser of the literal: TAB..CR and space. *)
Definition c_isspace (n : N) : bool :=
  (((9 <=? n) && (n <=? 13)) || (n =? 32))%N.

Fixpoint drop_c_spaces (l : list N) : list N :=
  match l with
  | [] => []
  | n :: t => if c_isspace n then drop_c_spaces t else l
  end.

(** The digits of a decimal literal; single underscores may separate
    digits ([prev] tells whether the previous character was a digit). *)
Fixpoint digits (acc : Z) (prev : bool) (l : list N) : option Z :=
  match l with
  | [] => if prev then Some acc else None
  | n :: t =>
      if ((48 <=? n) && (n <=? 57))%N
      then digits (10 * acc + Z.of_N (n - 48)) true t
      else if (n =? 95)%N
           then (if prev then digits acc false t else None)
           else None
  end.

(** [int(s)] in base 10; [None] stands for the [ValueError] of an
    invalid literal. *)
Definition int (s : string) : option Z :=
  match to_ascii (chars s) with
  | None => None
  | Some l =>
      match rev (drop_c_spaces (rev (drop_c_spaces l))) with
      | [] => None
      | n :: r =>
          if (n =? 43)%N then digits 0 false r
          else if (n =? 45)%N then option_map Z.opp (digits 0 false r)
               else digits 0 false (n :: r)
      end
  end.

(** The specification's notion of substring. *)
Definition substring_of (k s : string) : Prop :=
  exists pre post, s = (pre ++ k ++ post)%string.

End PyStr.

(* ================================================================== *)
(** * pandas columns *)

Module Pandas.

Section Sorting.
Context {A : Type}.
(** [before y x]: row [y] has to come strictly before row [x]. *)
Variable before : A -> A -> bool.

Fixpoint insert_stable (x : A) (l : list A) : list A :=
  match l with
  | [] => [x]
  | y :: t => if before y x then y :: insert_stable x t else x :: l
  end.

(** Rows that [before] does not separate keep their input order. *)
Definition stable_sort (l : list A) : list A :=
  fold_right insert_stable [] l.

(** The order a stable sort leaves two rows in, when [earlier] is the
    order they had in the input: [b] does not have to come before
    [a], and either [a] has to come before [b] or [a] was earlier. *)
Variable earlier : A -> A -> Prop.

Definition ranked (a b : A) : Prop :=
  before b a = false /\ (before a b = true \/ earlier a b).
End Sorting.

(** [dropna]: the cells that are not NaN. *)
Definition dropna {A : Type} (s : list (option A)) : list A :=
  flat_map (fun c => match c with Some x => [x] | None => [] end) s.

Section Counting.
Context {A : Type}.
Variable eqb : A -> A -> bool.

(** One step of the hash-table pass of [value_counts]: a value seen
    before has its count incremented in place, a new value is
    appended with count 1. *)
Fixpoint bump (x : A) (tbl : list (A * nat)) : list (A * nat) :=
  match tbl with
  | [] => [(x, 1)]
  | (k, c) :: t => if eqb k x then (k, S c) :: t else (k, c) :: bump x t
  end.

Definition tally (l : list A) : list (A * nat) :=
  fold_left (fun tbl x => bump x tbl) l [].

Definition count_gt (a b : A * nat) : bool := snd b <? snd a.

(** [s.value_counts()]: NaN dropped, distinct values counted,
    largest count first. *)
Definition value_counts (s : list (option A)) : list (A * nat) :=
  stable_sort count_gt (tally (dropna s)).

(** [counts.nlargest(n)] on a series of counts. *)
Definition nlargest (n : nat) (vc : list (A * nat)) : list (A * nat) :=
  firstn n (stable_sort count_gt vc).

(** Occurrences of [x] in [l], and the position of its first one
    ([length l] when there is none). *)
Fixpoint count (x : A) (l : list A) : nat :=
  match l with
  | [] => 0
  | y :: t => (if eqb y x then 1 else 0) + count x t
  end.

Fixpoint first_index (x : A) (l : list A) : nat :=
  match l with
  | [] => 0
  | y :: t => if eqb y x then 0 else S (first_index x t)
  end.

(** In a table of counts over [l], entry [a] outranks entry [b] when
    its count is larger, or the counts are equal and its value is
    met first in [l]. *)
Definition outranks (l : list A) (a b : A * nat) : Prop :=
  snd b < snd a
  \/ (snd a = snd b /\ first_index (fst a) l < first_index (fst b) l).
End Counting.

(** [s.str] on a column read from the file: the reader gives a column
    that has rows and no text in any of them the dtype float64, on which
    the accessor raises [AttributeError]; a column without rows, or with
    some text, has dtype object. *)
Definition missing {A : Type} (c : option A) : bool :=
  match c with None => true | Some _ => false end.

Definition str_accessor (s : list (option string)) : result unit :=
  match s with
  | [] => Ok tt
  | _ :: _ => if forallb missing s then Raise AttributeError else Ok tt
  end.

(** [s.str.contains(pat, na=na)] for a pattern without regular
    expression metacharacters. *)
Definition str_contains (pat : string) (na : bool) (c : option string) : bool :=
  match c with
  | Some s => PyStr.contains pat s
  | None => na
  end.

(** [s.str.split(sep)] *)
Definition str_split (sep : string) (s : list (option string))
  : list (option (list string)) :=
  map (option_map (PyStr.split sep)) s.

(** [s.explode()]: one row per list element; NaN and the empty list
    each give one NaN row. *)
Definition explode {A : Type} (s : list (option (list A))) : list (option A) :=
  flat_map (fun c => match c with
                     | Some (x :: t) => map Some (x :: t)
                     | Some [] => [None]
                     | None => [None]
                     end) s.

(** [s != v], element-wise: NaN differs from every string. *)
Definition ne (v : string) (c : option string) : bool :=
  match c with
  | Some x => negb (String.eqb x v)
  | None => true
  end.

End Pandas.

(* ================================================================== *)
(** * The data set *)

(** A cell of the [Year] column: NaN, a finite number, an infinity, or
    text that the reader could not turn into a number (the column then
    has dtype object). *)
Inductive year_cell : Type :=
| YNaN
| YNum (q : Q)
| YInf (negative : bool)
| YStr (s : string).

Definition isna (y : year_cell) : bool :=
  match y with YNaN => true | _ => false end.

(** Numeric narrowing of a float to an integer: the fraction is cut off. *)
Definition trunc (q : Q) : Z := Z.quot (Qnum q) (Z.pos (Qden q)).

Definition INT64_MIN : Z := (- 2 ^ 63)%Z.
Definition INT64_MAX : Z := (2 ^ 63 - 1)%Z.

Definition in_int64 (z : Z) : bool := ((INT64_MIN <=? z) && (z <=? INT64_MAX))%Z.

(** The cast of a finite float64 to int64, as the x86-64 conversion
    performs it: the truncated value when int64 holds it, the smallest
    int64 otherwise. *)
Definition float_to_int64 (q : Q) : Z :=
  if in_int64 (trunc q) then trunc q else INT64_MIN.

(** [astype(int)] on one cell: a float column refuses NaN and the
    infinities; in an object column each text goes through [int], whose
    result has to fit int64. *)
Definition astype_int (y : year_cell) : result Z :=
  match y with
  | YNaN => Raise ValueError
  | YInf _ => Raise ValueError
  | YNum q => Ok (float_to_int64 q)
  | YStr s => match PyStr.int s with
              | Some z => if in_int64 z then Ok z else Raise OverflowError
              | None => Raise ValueError
              end
  end.

(** One row of [imdb-movies-dataset.csv]. *)
Module Csv.
Record Row : Type := mkRow {
  Title : option string;
  Year : year_cell;
  Genre : option string;
  Rating : option Q;
  Duration : option Q;
  Director : option string;
  Cast : option string;
  Poster : option string
}.
End Csv.

(** One row of [movies]: the columns of the file, [Poster] overwritten,
    [Year_int] and [Motif] added. *)
Record Movie : Type := mkMovie {
  Title : option string;
  Year : year_cell;
  Year_int : Z;
  Genre : option string;
  Rating : option Q;
  Duration : option Q;
  Director : option string;
  Cast : option string;
  Poster : string;
  Motif : string
}.

Definition SUBJECT : string := "Nicolas Cage".

(** [df[mask]] of line 10, for the mask [str.contains] computes. *)
Definition subject_rows (df : list Csv.Row) : list Csv.Row :=
  filter (fun r => Pandas.str_contains SUBJECT false (Csv.Cast r)) df.

(** Lines 7-10: the [.str] accessor first, then the rows the mask
    selects. *)
Definition load_data (df : list Csv.Row) : result (list Csv.Row) :=
  _ <- Pandas.str_accessor (map Csv.Cast df) ;;
  Ok (subject_rows df).

(** [dropna(subset=['Year'])], line 13. *)
Definition dropna_Year (df : list Csv.Row) : list Csv.Row :=
  filter (fun r => negb (isna (Csv.Year r))) df.

Definition DEFAULT_POSTER_URL : string :=
  "https://via.placeholder.com/300x450?text=No+Image".

(** The lambda of lines 20-22. *)
Definition poster_or_default (url : option string) : string :=
  match url with
  | None => DEFAULT_POSTER_URL
  | Some u =>
      if String.eqb (PyStr.strip u) EmptyString then DEFAULT_POSTER_URL else u
  end.

(** Lines 25-29; a dict iterates in insertion order. *)
Definition MOTIF_MAP : list (string * string) :=
  [ ("Action", "Action"); ("Adventure", "Adventure"); ("Comedy", "Comedy");
    ("Drama", "Drama"); ("Thriller", "Thriller"); ("Crime", "Crime");
    ("Fantasy", "Fantasy"); ("Family", "Family") ].

(** [key in genres]: a [TypeError] when [genres] is the float NaN. *)
Definition py_in (key : string) (genres : option string) : result bool :=
  match genres with
  | Some g => Ok (PyStr.contains key g)
  | None => Raise TypeError
  end.

Fixpoint assign_motif_loop (items : list (string * string))
         (genres : option string) : result string :=
  match items with
  | [] => Ok "Other"
  | (key, label) :: rest =>
      hit <- py_in key genres ;;
      if (hit : bool) then Ok label else assign_motif_loop rest genres
  end.

(** Lines 31-35. *)
Definition assign_motif (genres : option string) : result string :=
  assign_motif_loop MOTIF_MAP genres.

Definition mkNormalized (r : Csv.Row) (y : Z) (m : string) : Movie :=
  {| Title := Csv.Title r; Year := Csv.Year r; Year_int := y;
     Genre := Csv.Genre r; Rating := Csv.Rating r;
     Duration := Csv.Duration r; Director := Csv.Director r;
     Cast := Csv.Cast r; Poster := poster_or_default (Csv.Poster r);
     Motif := m |}.

Fixpoint assemble (rows : list Csv.Row) (ys : list Z) (ms : list string)
  : list Movie :=
  match rows, ys, ms with
  | r :: rows', y :: ys', m :: ms' => mkNormalized r y m :: assemble rows' ys' ms'
  | _, _, _ => []
  end.

(** Lines 13-37, column by column: the year cast of the whole column
    comes before the motif of any row. *)
Definition normalize (df : list Csv.Row) : result (list Movie) :=
  loaded <- load_data df ;;
  let kept := dropna_Year loaded in
  ys <- mapM (fun r => astype_int (Csv.Year r)) kept ;;
  ms <- mapM (fun r => assign_motif (Csv.Genre r)) kept ;;
  Ok (assemble kept ys ms).

(* ================================================================== *)
(** * Sidebar and interactive filter *)

(** Python's [min] and [max] of a list: [ValueError] on the empty one. *)
Definition py_min (l : list Z) : result Z :=
  match l with
  | [] => Raise ValueError
  | x :: t => Ok (fold_left Z.min t x)
  end.

Definition py_max (l : list Z) : result Z :=
  match l with
  | [] => Raise ValueError
  | x :: t => Ok (fold_left Z.max t x)
  end.

(** [s.unique()]: the distinct values in order of first appearance. *)
Definition unique {A : Type} (eqb : A -> A -> bool) (l : list A) : list A :=
  map fst (Pandas.tally eqb l).

(** Line 47. *)
Definition years (movies : list Movie) : list Z :=
  Pandas.stable_sort Z.ltb (unique Z.eqb (map Year_int movies)).

(** Line 55. *)
Definition top_motifs (movies : list Movie) : list string :=
  "All" :: Pandas.stable_sort String.ltb (unique String.eqb (map Motif movies)).

(** The bounds handed to the slider, lines 48-53. *)
Definition slider_bounds (movies : list Movie) : result (Z * Z) :=
  lo <- py_min (years movies) ;;
  hi <- py_max (years movies) ;;
  Ok (lo, hi).

(** What the two widgets return. *)
Record Selection : Type := mkSelection {
  yr : Z * Z;
  selected_motif : string
}.

(** Lines 59-63. *)
Definition apply_filters (movies : list Movie) (sel : Selection) : list Movie :=
  let filtered :=
    filter (fun m => (fst (yr sel) <=? Year_int m)%Z
                     && (Year_int m <=? snd (yr sel))%Z) movies in
  if negb (String.eqb (selected_motif sel) "All")
  then filter (fun m => String.eqb (Motif m) (selected_motif sel)) filtered
  else filtered.

(* ================================================================== *)
(** * Aggregates over the filtered frame *)

(** Line 68: [groupby('Year_int').size()], groups in key order. *)
Definition counts (filtered : list Movie) : list (Z * nat) :=
  Pandas.stable_sort (fun a b => (fst a <? fst b)%Z)
    (Pandas.tally Z.eqb (map Year_int filtered)).

(** Line 85. *)
Definition genres (filtered : list Movie) : list (option string) :=
  Pandas.explode (Pandas.str_split ", " (map Genre filtered)).

(** Line 86. *)
Definition top_genres (filtered : list Movie) : list (string * nat) :=
  Pandas.nlargest 5 (Pandas.value_counts String.eqb (genres filtered)).

Definition Qltb (a b : Q) : bool := negb (Qle_bool b a).

(** The value of [s.mean()] on a column that holds a number: the
    float64 quotient of the float64 sum of the cells by their count.
    The rounding of that sum and quotient is not computed here: the value
    is kept as the cells it is taken over. *)
Inductive float_mean : Type :=
| MeanOf (cells : list Q).

(** [s.mean()], [s.min()], [s.max()]: NaN cells are skipped, and the
    result is NaN when no cell is left. *)
Definition mean (s : list (option Q)) : option float_mean :=
  match Pandas.dropna s with
  | [] => None
  | x :: t => Some (MeanOf (x :: t))
  end.

Definition series_min (s : list (option Q)) : option Q :=
  match Pandas.dropna s with
  | [] => None
  | x :: t => Some (fold_left (fun a b => if Qltb b a then b else a) t x)
  end.

Definition series_max (s : list (option Q)) : option Q :=
  match Pandas.dropna s with
  | [] => None
  | x :: t => Some (fold_left (fun a b => if Qltb a b then b else a) t x)
  end.

(** Lines 104-109. *)
Record Stats : Type := mkStats {
  avg : option float_mean;
  smin : option Q;
  smax : option Q
}.

Definition describe (s : list (option Q)) : Stats :=
  {| avg := mean s; smin := series_min s; smax := series_max s |}.

(** Line 122: [value_counts().sort_index()]. *)
Definition rating_counts (filtered : list Movie) : list (Q * nat) :=
  Pandas.stable_sort (fun a b => Qltb (fst a) (fst b))
    (Pandas.value_counts Qeq_bool (map Rating filtered)).

(** The ordering of [nlargest(_, 'Rating')]: a larger rating first, NaN
    after every number. *)
Definition rating_gt (a b : option Q) : bool :=
  match a, b with
  | Some x, Some y => Qltb y x
  | Some _, None => true
  | None, _ => false
  end.

(** A cell of a frame, and a row as its cells under the names of their
    columns, in column order. *)
Inductive cell : Type :=
| NaN
| Text (s : string)
| Int (z : Z)
| Float (q : Q).

Definition text_cell (c : option string) : cell :=
  match c with Some s => Text s | None => NaN end.

Definition float_cell (c : option Q) : cell :=
  match c with Some q => Float q | None => NaN end.

(** [frame[name] = values] on one row: an existing column is
    overwritten where it stands, a new one is added after the last. *)
Fixpoint assign (name : string) (value : cell) (row : list (string * cell))
  : list (string * cell) :=
  match row with
  | [] => [(name, value)]
  | (k, v) :: t =>
      if String.eqb k name then (k, value) :: t else (k, v) :: assign name value t
  end.

(** [row[name]] *)
Fixpoint lookup (name : string) (row : list (string * cell)) : option cell :=
  match row with
  | [] => None
  | (k, v) :: t => if String.eqb k name then Some v else lookup name t
  end.

(** [str(z)] *)
Definition str_of_int (z : Z) : string := NilZero.string_of_int (Z.to_int z).

(** The integer nearest to a rational that is not negative, the even
    one of the two when it lies half way. *)
Definition round_half_even (r : Q) : Z :=
  let f := Qfloor r in
  match Qcompare (r - inject_Z f) (1 # 2) with
  | Lt => f
  | Gt => (f + 1)%Z
  | Eq => if Z.even f then f else (f + 1)%Z
  end.

(** [f"{x:.1f}"] on a finite float other than minus zero: the sign, the
    integer part and one decimal, rounded from the exact value. *)
Definition format_1f (x : Q) : string :=
  let n := round_half_even (Qabs x * 10) in
  ((if Qle_bool 0 x then EmptyString else "-")
   ++ str_of_int (n / 10) ++ "." ++ str_of_int (n mod 10))%string.

(** The lambda of line 153. *)
Definition format_rating (c : option Q) : string :=
  match c with
  | Some x => format_1f x
  | None => "nan"
  end.

(** The column selection [[['Title','Year_int','Rating','Poster','Genre']]]
    of line 151. *)
Definition highlight (m : Movie) : list (string * cell) :=
  [ ("Title", text_cell (Title m)); ("Year_int", Int (Year_int m));
    ("Rating", float_cell (Rating m)); ("Poster", Text (Poster m));
    ("Genre", text_cell (Genre m)) ].

(** [filtered.nlargest(5, 'Rating')] *)
Definition nlargest_Rating (n : nat) (filtered : list Movie) : list Movie :=
  firstn n
    (Pandas.stable_sort (fun a b => rating_gt (Rating a) (Rating b)) filtered).

(** Lines 151-153: the selection, then the column [Year] added and
    the column [Rating] overwritten, both with text for the display. *)
Definition top5 (filtered : list Movie) : list (list (string * cell)) :=
  map (fun m =>
         assign "Rating" (Text (format_rating (Rating m)))
                (assign "Year" (Text (str_of_int (Year_int m))) (highlight m)))
      (nlargest_Rating 5 filtered).

(** Line 165. *)
Definition director_df (filtered : list Movie) : list (string * nat) :=
  Pandas.nlargest 5 (Pandas.value_counts String.eqb (map Director filtered)).

(** Lines 167-170. *)
Definition co_stars_df (filtered : list Movie) : list (string * nat) :=
  Pandas.nlargest 5
    (Pandas.value_counts String.eqb
       (filter (Pandas.ne SUBJECT)
          (Pandas.explode (Pandas.str_split ", " (map Cast filtered))))).

(** Everything the script hands to the charts.  [duration_data] is the
    column the duration histogram is drawn from; the binning itself is
    done by the chart. *)
Record Report : Type := mkReport {
  r_counts : list (Z * nat);
  r_top_genres : list (string * nat);
  r_rating_stats : Stats;
  r_duration_stats : Stats;
  r_rating_counts : list (Q * nat);
  r_duration_data : list (option Q);
  r_top5 : list (list (string * cell));
  r_director_df : list (string * nat);
  r_co_stars_df : list (string * nat)
}.

Definition aggregates (filtered : list Movie) : Report :=
  {| r_counts := counts filtered;
     r_top_genres := top_genres filtered;
     r_rating_stats := describe (map Rating filtered);
     r_duration_stats := describe (map Duration filtered);
     r_rating_counts := rating_counts filtered;
     r_duration_data := map Duration filtered;
     r_top5 := top5 filtered;
     r_director_df := director_df filtered;
     r_co_stars_df := co_stars_df filtered |}.

(** The two widgets of the sidebar, as the script meets them: each is
    called with the arguments the script computes and either returns
    what the user picked or raises. *)
Record Widgets : Type := mkWidgets {
  slider : Z -> Z -> Z * Z -> result (Z * Z);
  selectbox : list string -> result string
}.

(** The script from top to bottom, for the widgets and a data set: the
    arguments of the slider are evaluated before it is called. *)
Definition app (ui : Widgets) (df : list Csv.Row) : result Report :=
  movies <- normalize df ;;
  bounds <- slider_bounds movies ;;
  range <- slider ui (fst bounds) (snd bounds) bounds ;;
  motif <- selectbox ui (top_motifs movies) ;;
  Ok (aggregates
        (apply_filters movies {| yr := range; selected_motif := motif |})).

(* ================================================================== *)
(** * Filmography grid *)

(** Line 192. *)
Definition exclusions : list string :=
  [ "Arcadian"; "Dream Scenario"; "Longlegs"; "The Retirement Plan";
    "Wild at Heart"; "Ghost Rider: Spirit of Vengeance"; "The Surfer";
    "Lords of War"; "Running with the Devil"; "Jiu Jitsu";
    "The Gunslingers"; "The Carpenter's Son" ].

(** [s.isin(values)], element-wise: NaN is in no list of strings. *)
Definition isin (values : list string) (c : option string) : bool :=
  match c with
  | Some x => existsb (String.eqb x) values
  | None => false
  end.

(** Line 193. *)
Definition filtered_filmography (filtered : list Movie) : list Movie :=
  filter (fun m => negb (isin exclusions (Title m))) filtered.

(** [range(0, stop, step)] for a positive step. *)
Definition py_range (stop step : nat) : list nat :=
  map (fun k => k * step) (seq 0 ((stop + step - 1) / step)).

(** [frame.iloc[i:j]] *)
Definition iloc {A : Type} (i j : nat) (frame : list A) : list A :=
  firstn (j - i) (skipn i frame).

(** Line 195: the frame cut into rows of the grid. *)
Definition rows {A : Type} (frame : list A) : list (list A) :=
  map (fun i => iloc i (i + 5) frame) (py_range (List.length frame) 5).

(* ================================================================== *)
(** * The words of the specification *)

(** The tokens of a column of comma-separated cells, flattened in frame
    order; a NaN cell has none. *)
Definition tokens (cells : list (option string)) : list string :=
  flat_map (fun c => match c with
                     | Some text => PyStr.split ", " text
                     | None => []
                     end) cells.

(** All genre tokens of the frame. *)
Definition genre_tokens (filtered : list Movie) : list string :=
  tokens (map Genre filtered).

(** The rows of a frame with their positions. *)
Definition enumerate {A : Type} (l : list A) : list (nat * A) :=
  combine (seq 0 (List.length l)) l.

Definition rating_before (a b : nat * Movie) : bool :=
  rating_gt (Rating (snd a)) (Rating (snd b)).

(** Rating [a] is higher than rating [b]: both are numbers and [a] is
    the larger, or only [a] is a number. *)
Definition rated_higher (a b : option Q) : Prop :=
  match a, b with
  | Some x, Some y => (y < x)%Q
  | Some _, None => True
  | None, _ => False
  end.

(** Row [a] is rated at least as high as row [b], and either higher or
    it stands earlier in the frame. *)
Definition outrates (a b : nat * Movie) : Prop :=
  ~ rated_higher (Rating (snd b)) (Rating (snd a))
  /\ (rated_higher (Rating (snd a)) (Rating (snd b)) \/ fst a < fst b).

(** [pieces] are the pieces of [text] cut at every occurrence of [sep]:
    joined again with [sep] they give [text], and [sep] occurs in none
    of them. *)
Definition cut_at (sep text : string) (pieces : list string) : Prop :=
  pieces <> []
  /\ String.concat sep pieces = text
  /\ Forall (fun piece => ~ PyStr.substring_of sep piece) pieces.

(** [toks] is the sequence of the pieces of all the cells of a column,
    in frame order; a NaN cell has none. *)
Inductive flattened (sep : string) : list (option string) -> list string -> Prop :=
| flattened_nil : flattened sep [] []
| flattened_text (text : string) (cells : list (option string))
                 (pieces toks : list string) :
    cut_at sep text pieces -> flattened sep cells toks ->
    flattened sep (Some text :: cells) (pieces ++ toks)
| flattened_nan (cells : list (option string)) (toks : list string) :
    flattened sep cells toks -> flattened sep (None :: cells) toks.

(** The five columns the specification gives to a career highlight. *)
Definition highlight_columns : list string :=
  [ "Title"; "Year_int"; "Rating"; "Poster"; "Genre" ].

(* ================================================================== *)
(** * Sample rows *)

Module Sample.
Local Open Scope Q_scope.

(** The two rows of the worked example of the specification. *)
Definition face_off : Csv.Row :=
  {| Csv.Title := Some "Face/Off"; Csv.Year := YNum 2007;
     Csv.Genre := Some "Action, Thriller"; Csv.Rating := Some (85 # 10);
     Csv.Duration := Some 138; Csv.Director := Some "John Woo";
     Csv.Cast := Some "Nicolas Cage, John Travolta";
     Csv.Poster := Some "https://example.org/faceoff.jpg" |}.

Definition honeymoon : Csv.Row :=
  {| Csv.Title := Some "Honeymoon in Vegas"; Csv.Year := YNum 2007;
     Csv.Genre := Some "Comedy"; Csv.Rating := Some 6;
     Csv.Duration := Some 96; Csv.Director := Some "Andrew Bergman";
     Csv.Cast := Some "Nicolas Cage, Sarah Jessica Parker";
     Csv.Poster := Some "   " |}.

(** A film of the subject whose Genre cell is empty in the file. *)
Definition row_without_genre : Csv.Row :=
  {| Csv.Title := Some "Untitled"; Csv.Year := YNum 2011; Csv.Genre := None;
     Csv.Rating := None; Csv.Duration := None; Csv.Director := None;
     Csv.Cast := Some "Nicolas Cage"; Csv.Poster := None |}.

(** A film of the subject whose Year cell is text. *)
Definition row_year_tba : Csv.Row :=
  {| Csv.Title := Some "The Surfer"; Csv.Year := YStr "TBA";
     Csv.Genre := Some "Thriller"; Csv.Rating := None;
     Csv.Duration := None; Csv.Director := Some "Lorcan Finnegan";
     Csv.Cast := Some "Nicolas Cage, Julian McMahon"; Csv.Poster := None |}.

(** A film without the subject. *)
Definition row_other_actor : Csv.Row :=
  {| Csv.Title := Some "Cast Away"; Csv.Year := YNum 2000;
     Csv.Genre := Some "Adventure, Drama"; Csv.Rating := Some (78 # 10);
     Csv.Duration := Some 143; Csv.Director := Some "Robert Zemeckis";
     Csv.Cast := Some "Tom Hanks, Helen Hunt"; Csv.Poster := None |}.

Definition all_years : Selection :=
  {| yr := (1900, 2100)%Z; selected_motif := "All" |}.

(** A film of the subject whose Year cell is empty in the file. *)
Definition row_without_year : Csv.Row :=
  {| Csv.Title := Some "Untitled project"; Csv.Year := YNaN;
     Csv.Genre := None; Csv.Rating := None; Csv.Duration := None;
     Csv.Director := None; Csv.Cast := Some "Nicolas Cage";
     Csv.Poster := None |}.

(** A film whose Cast cell is empty in the file. *)
Definition row_without_cast : Csv.Row :=
  {| Csv.Title := Some "Lost reel"; Csv.Year := YNum 1950;
     Csv.Genre := Some "Drama"; Csv.Rating := None; Csv.Duration := None;
     Csv.Director := None; Csv.Cast := None; Csv.Poster := None |}.

(** A film of the subject released in another year, with a poster
    cell that holds a no-break space only (U+00A0). *)
Definition con_air : Csv.Row :=
  {| Csv.Title := Some "Con Air"; Csv.Year := YNum (1997 # 1);
     Csv.Genre := Some "Action, Crime, Thriller"; Csv.Rating := Some (69 # 10);
     Csv.Duration := Some 115; Csv.Director := Some "Simon West";
     Csv.Cast := Some "Nicolas Cage, John Cusack, John Malkovich";
     Csv.Poster := Some (String (ascii_of_nat 194)
                                (String (ascii_of_nat 160) EmptyString)) |}.

(** Widgets left as they come up: the slider at its value, the
    selector at its first choice. *)
Definition untouched : Widgets :=
  {| slider := fun lo hi value =>
                 if (lo <? hi)%Z then Ok value else Raise StreamlitAPIException;
     selectbox := fun choices => Ok (hd "All" choices) |}.

Definition longlegs : Csv.Row :=
  {| Csv.Title := Some "Longlegs"; Csv.Year := YNum (20249 # 10);
     Csv.Genre := Some "Horror, Mystery"; Csv.Rating := Some (66 # 10);
     Csv.Duration := Some 101; Csv.Director := Some "Osgood Perkins";
     Csv.Cast := Some "Maika Monroe, Nicolas Cage"; Csv.Poster := None |}.

(** A normalized frame of three films. *)
Definition three_movies : list Movie :=
  [ mkNormalized face_off 2007 "Action";
    mkNormalized honeymoon 2007 "Comedy";
    mkNormalized longlegs 2024 "Other" ].
End Sample.

(** The candidate labels of the specification, in their fixed order. *)
Definition candidate_labels : list string :=
  [ "Action"; "Adventure"; "Comedy"; "Drama"; "Thriller"; "Crime";
    "Fantasy"; "Family" ].

(* ================================================================== *)
(** * Facts about the string functions *)

Module PyStrFacts.
Import PyStr.

Lemma startswith_iff (p s : string) :
  startswith p s = true <-> exists post, s = (p ++ post)%string.
Proof.
  revert s; induction p as [|a p IH]; intros s; simpl.
  - split; [intros _; now exists s | reflexivity].
  - destruct s as [|b s].
    + split; [discriminate | intros [post H]; discriminate].
    + rewrite andb_true_iff, Ascii.eqb_eq, IH. split.
      * intros [-> [post ->]]. now exists post.
      * intros [post H]. injection H as -> ->. split; [reflexivity | now exists post].
Qed.

Lemma contains_iff (k s : string) :
  contains k s = true <-> substring_of k s.
Proof.
  unfold substring_of. split.
  - induction s as [|c s IH]; simpl; rewrite orb_true_iff.
    + intros [H | H]; [| discriminate].
      apply startswith_iff in H as [post H]. now exists EmptyString, post.
    + intros [H | H].
      * apply startswith_iff in H as [post H]. now exists EmptyString, post.
      * destruct (IH H) as (pre & post & ->). now exists (String c pre), post.
  - intros (pre & post & ->). induction pre as [|c pre IH]; simpl.
    + assert (H : startswith k (k ++ post) = true)
        by (apply startswith_iff; now exists post).
      destruct (k ++ post)%string; simpl in *; rewrite H; reflexivity.
    + rewrite IH. apply orb_true_r.
Qed.

Lemma strip_empty : strip EmptyString = EmptyString.
Proof. reflexivity. Qed.

Lemma split_from_nonempty (sep : string) (skip : nat) (s : string) :
  split_from sep skip s <> [].
Proof.
  revert skip; induction s as [|c s IH]; intros skip; simpl; [discriminate |].
  destruct skip as [|k]; [| apply IH].
  destruct (startswith sep (String c s)); [discriminate |].
  destruct (split_from sep 0 s); discriminate.
Qed.

Lemma concat_cons_char (sep : string) (c : ascii) (t : string) (ts : list string) :
  String.concat sep (String c t :: ts) = String c (String.concat sep (t :: ts)).
Proof. destruct ts; reflexivity. Qed.

(** Joining the tokens with the separator gives the string back; [skip]
    characters of a separator are still to be passed over. *)
Lemma split_from_join (sep : string) (s : string) :
  sep <> EmptyString ->
  forall (skip : nat) (p rest : string),
    s = (p ++ rest)%string -> String.length p = skip ->
    String.concat sep (split_from sep skip s) = rest.
Proof.
  intros Hsep. induction s as [|c s IH]; intros skip p rest Hs Hlen.
  - destruct p; [| discriminate]. simpl in Hs. subst rest.
    simpl in Hlen. subst skip. reflexivity.
  - destruct skip as [|k].
    + destruct p; [| discriminate]. simpl in Hs. subst rest. simpl.
      destruct sep as [|a sep']; [contradiction |].
      destruct (startswith (String a sep') (String c s)) eqn:E.
      * apply startswith_iff in E as [post Hpost].
        simpl in Hpost. injection Hpost as <- Hpost.
        replace (String.length (String c sep') - 1) with (String.length sep')
          by (simpl; lia).
        pose proof (IH (String.length sep') sep' post Hpost eq_refl) as Hrec.
        revert Hrec.
        destruct (split_from (String c sep') (String.length sep') s) as [|t ts] eqn:Et;
          intros Hrec; [now apply split_from_nonempty in Et |].
        change (String.concat (String c sep') (EmptyString :: t :: ts))
          with (String c sep' ++ String.concat (String c sep') (t :: ts))%string.
        rewrite Hrec, Hpost. reflexivity.
      * pose proof (IH 0 EmptyString s eq_refl eq_refl) as Hrec.
        revert Hrec.
        destruct (split_from (String a sep') 0 s) as [|t ts] eqn:Et;
          intros Hrec; [now apply split_from_nonempty in Et |].
        rewrite concat_cons_char, Hrec. reflexivity.
    + destruct p as [|b p]; [discriminate |]. simpl in Hs, Hlen.
      injection Hs as -> Hs. injection Hlen as Hlen. simpl.
      now apply (IH k p rest).
Qed.

Lemma split_join (sep s : string) :
  sep <> EmptyString -> String.concat sep (split sep s) = s.
Proof.
  intros Hsep. now apply (split_from_join sep s Hsep 0 EmptyString s).
Qed.

Example split_examples :
  split ", " "Action, Thriller" = ["Action"; "Thriller"]
  /\ split ", " "Comedy" = ["Comedy"]
  /\ split ", " "a, , b" = ["a"; EmptyString; "b"]
  /\ split ", " "a,b , c, " = ["a,b "; "c"; EmptyString]
  /\ split ", " EmptyString = [EmptyString].
Proof. repeat split. Qed.

Example int_examples :
  int " 1995 " = Some 1995%Z /\ int "-1_000" = Some (- 1000)%Z
  /\ int "1995.0" = None /\ int "TBA" = None /\ int "1__0" = None.
Proof. repeat split. Qed.

End PyStrFacts.

(* ================================================================== *)
(** * Facts about column operations that may raise *)

Lemma mapM_Ok_Forall2 {A B : Type} (f : A -> result B) (l : list A) (ys : list B) :
  mapM f l = Ok ys -> Forall2 (fun x y => f x = Ok y) l ys.
Proof.
  revert ys; induction l as [|x l IH]; simpl; intros ys H.
  - injection H as <-. constructor.
  - destruct (f x) as [y|e] eqn:Hx; simpl in H; [| discriminate].
    destruct (mapM f l) as [ys'|e] eqn:Hl; simpl in H; [| discriminate].
    injection H as <-. constructor; auto.
Qed.

Lemma mapM_raises {A B : Type} (f : A -> result B) (l : list A) (x : A) (e : exn) :
  In x l -> f x = Raise e -> exists e', mapM f l = Raise e'.
Proof.
  induction l as [|y l IH]; simpl; [tauto |].
  intros [-> | Hin] Hx.
  - rewrite Hx. now exists e.
  - destruct (f y) as [b|e1]; simpl; [| now exists e1].
    destruct (IH Hin Hx) as [e' ->]. now exists e'.
Qed.

Lemma mapM_raises_same {A B : Type} (f : A -> result B) (l : list A) (e : exn) :
  (forall x e', In x l -> f x = Raise e' -> e' = e) ->
  (exists x, In x l /\ f x = Raise e) -> mapM f l = Raise e.
Proof.
  induction l as [|y l IH]; simpl; intros Hall (x & Hin & Hx); [tauto |].
  destruct (f y) as [b|e1] eqn:Hy; simpl.
  - destruct Hin as [-> | Hin]; [congruence |].
    rewrite IH; [reflexivity | | now exists x].
    intros z e' Hz. apply Hall. now right.
  - f_equal. apply (Hall y); auto.
Qed.

Lemma assemble_Forall2 (rows : list Csv.Row) (ys : list Z) (ms : list string)
      (P : Csv.Row -> Z -> Prop) (Q : Csv.Row -> string -> Prop) :
  Forall2 P rows ys -> Forall2 Q rows ms ->
  Forall2 (fun r m => P r (Year_int m) /\ Q r (Motif m)
                      /\ Poster m = poster_or_default (Csv.Poster r)
                      /\ Genre m = Csv.Genre r /\ Cast m = Csv.Cast r
                      /\ Rating m = Csv.Rating r)
          rows (assemble rows ys ms).
Proof.
  intros HP; revert ms; induction HP as [|r y rows ys Hr HP IH]; intros ms HQ.
  - inversion HQ; subst; constructor.
  - inversion HQ; subst; simpl. constructor; [simpl; tauto | auto].
Qed.

Lemma load_data_Ok (df rows : list Csv.Row) :
  load_data df = Ok rows -> rows = subject_rows df.
Proof.
  unfold load_data. destruct (Pandas.str_accessor _); simpl; congruence.
Qed.

(** The accessor refuses exactly the columns that have rows and no
    text in any of them. *)
Lemma forallb_missing (s : list (option string)) :
  forallb Pandas.missing s = true <-> Forall (fun c => c = None) s.
Proof.
  rewrite forallb_forall, Forall_forall.
  split; intros H x Hx; specialize (H x Hx); destruct x; simpl in *; congruence.
Qed.

Lemma str_accessor_raises (s : list (option string)) :
  Pandas.str_accessor s = Raise AttributeError <->
  s <> [] /\ Forall (fun c => c = None) s.
Proof.
  rewrite <- forallb_missing.
  destruct s as [|c s]; [split; [discriminate | intros [H _]; now elim H] |].
  unfold Pandas.str_accessor. destruct (forallb Pandas.missing (c :: s)).
  - split; [intros _; split; [discriminate | reflexivity] | reflexivity].
  - split; [discriminate | intros [_ H]; discriminate].
Qed.

Lemma str_accessor_cases (s : list (option string)) :
  Pandas.str_accessor s = Ok tt \/ Pandas.str_accessor s = Raise AttributeError.
Proof.
  destruct s as [|c s]; [now left |].
  unfold Pandas.str_accessor. destruct (forallb Pandas.missing (c :: s)); auto.
Qed.

(** A row among the subject's rows makes the accessor accept the
    column. *)
Lemma subject_rows_load (df : list Csv.Row) (r : Csv.Row) :
  In r (subject_rows df) -> load_data df = Ok (subject_rows df).
Proof.
  intros H. unfold subject_rows in H. apply filter_In in H as [Hin Hc].
  unfold load_data.
  destruct (str_accessor_cases (map Csv.Cast df)) as [-> | E]; [reflexivity |].
  apply str_accessor_raises in E as [_ Hall]. rewrite Forall_forall in Hall.
  rewrite (Hall (Csv.Cast r)) in Hc by now apply in_map. discriminate.
Qed.

Lemma normalize_Ok (df : list Csv.Row) (movies : list Movie) :
  normalize df = Ok movies ->
  load_data df = Ok (subject_rows df)
  /\ Forall2 (fun r m => astype_int (Csv.Year r) = Ok (Year_int m)
                      /\ assign_motif (Csv.Genre r) = Ok (Motif m)
                      /\ Poster m = poster_or_default (Csv.Poster r)
                      /\ Genre m = Csv.Genre r /\ Cast m = Csv.Cast r
                      /\ Rating m = Csv.Rating r)
          (dropna_Year (subject_rows df)) movies.
Proof.
  unfold normalize. intros H.
  destruct (load_data df) as [rows|e] eqn:Hl; simpl in H; [| discriminate].
  pose proof (load_data_Ok df rows Hl) as ->. split; [reflexivity |].
  destruct (mapM _ _) as [ys|e] eqn:Hy in H; simpl in H; [| discriminate].
  destruct (mapM _ _) as [ms|e] eqn:Hm in H; simpl in H; [| discriminate].
  injection H as <-.
  apply mapM_Ok_Forall2 in Hy, Hm.
  apply (assemble_Forall2 _ _ _
           (fun r y => astype_int (Csv.Year r) = Ok y)
           (fun r m => assign_motif (Csv.Genre r) = Ok m)); assumption.
Qed.


(* ================================================================== *)
(** * Motif derivation *)

Lemma assign_motif_loop_first (items : list (string * string)) (g : string) :
  exists label,
    assign_motif_loop items (Some g) = Ok label /\
    ((exists done key rest,
         items = done ++ (key, label) :: rest
         /\ PyStr.substring_of key g
         /\ Forall (fun kl => ~ PyStr.substring_of (fst kl) g) done)
     \/ (label = "Other"
         /\ Forall (fun kl => ~ PyStr.substring_of (fst kl) g) items)).
Proof.
  induction items as [|[key lab] items IH]; simpl.
  - exists "Other". split; [reflexivity | right; split; [reflexivity | constructor]].
  - destruct (PyStr.contains key g) eqn:E.
    + exists lab. split; [reflexivity | left].
      exists [], key, items. repeat split; [| constructor].
      now apply PyStrFacts.contains_iff.
    + assert (Hno : ~ PyStr.substring_of key g).
      { intros H. apply PyStrFacts.contains_iff in H. congruence. }
      destruct IH as (label & Hrun & Hcase). exists label. split; [exact Hrun |].
      destruct Hcase as [(done & k & rest & -> & Hin & Hnone) | [-> Hnone]].
      * left. exists ((key, lab) :: done), k, rest.
        repeat split; [exact Hin | constructor; assumption].
      * right. split; [reflexivity | constructor; assumption].
Qed.

Lemma MOTIF_MAP_keys : map fst MOTIF_MAP = candidate_labels.
Proof. reflexivity. Qed.

Lemma MOTIF_MAP_identity (key label : string) :
  In (key, label) MOTIF_MAP -> key = label.
Proof.
  unfold MOTIF_MAP; simpl. intros H.
  repeat (destruct H as [H | H]; [injection H as <- <-; reflexivity |]).
  contradiction.
Qed.

(** C2. On a Genre string [g], [assign_motif] returns without raising,
    and its result is either the first entry of the fixed candidate list
    that is a substring of [g] (every candidate listed before it is not a
    substring of [g]), or "Other" when no candidate is a substring of
    [g].  The order of the labels inside [g] plays no part: "Drama,
    Action" gives "Action". *)
Theorem assign_motif_first_candidate (g : string) :
  (exists label,
      assign_motif (Some g) = Ok label /\
      ((exists earlier later,
           candidate_labels = earlier ++ label :: later
           /\ PyStr.substring_of label g
           /\ Forall (fun k => ~ PyStr.substring_of k g) earlier)
       \/ (label = "Other"
           /\ Forall (fun k => ~ PyStr.substring_of k g) candidate_labels)))
  /\ assign_motif (Some "Drama, Action") = Ok "Action".
Proof.
  split; [| reflexivity].
  destruct (assign_motif_loop_first MOTIF_MAP g) as (label & Hrun & Hcase).
  exists label. split; [exact Hrun |].
  destruct Hcase as [(done & key & rest & Hsplit & Hin & Hnone) | [-> Hnone]].
  - left. exists (map fst done), (map fst rest).
    assert (key = label) as ->.
    { apply MOTIF_MAP_identity. rewrite Hsplit. apply in_elt. }
    repeat split.
    + rewrite <- MOTIF_MAP_keys, Hsplit, map_app. reflexivity.
    + exact Hin.
    + apply Forall_map. exact Hnone.
  - right. split; [reflexivity |].
    rewrite <- MOTIF_MAP_keys. apply Forall_map. exact Hnone.
Qed.

Lemma assign_motif_missing : assign_motif None = Raise TypeError.
Proof. reflexivity. Qed.

Lemma assign_motif_string_total (g : string) :
  exists label, assign_motif (Some g) = Ok label.
Proof.
  destruct (assign_motif_loop_first MOTIF_MAP g) as (label & H & _).
  now exists label.
Qed.

Lemma assign_motif_raises_TypeError (c : option string) (e : exn) :
  assign_motif c = Raise e -> e = TypeError.
Proof.
  destruct c as [g|].
  - destruct (assign_motif_string_total g) as [l ->]. discriminate.
  - rewrite assign_motif_missing. congruence.
Qed.

Lemma normalize_missing_genre (df : list Csv.Row) (r : Csv.Row) :
  In r (dropna_Year (subject_rows df)) -> Csv.Genre r = None ->
  (exists e, normalize df = Raise e)
  /\ (forall ys,
         mapM (fun r => astype_int (Csv.Year r)) (dropna_Year (subject_rows df)) = Ok ys ->
         normalize df = Raise TypeError).
Proof.
  intros Hsurvives Hmissing.
  assert (Hload : load_data df = Ok (subject_rows df)).
  { apply (subject_rows_load df r). unfold dropna_Year in Hsurvives.
    now apply filter_In in Hsurvives. }
  assert (Hm : mapM (fun r => assign_motif (Csv.Genre r))
                    (dropna_Year (subject_rows df)) = Raise TypeError).
  { apply mapM_raises_same.
    - intros x e' _ Hx. now apply assign_motif_raises_TypeError in Hx.
    - exists r. rewrite Hmissing. now split. }
  split.
  - unfold normalize. rewrite Hload; simpl.
    destruct (mapM (fun r0 => astype_int (Csv.Year r0)) _) as [ys|e]; simpl.
    + rewrite Hm. now exists TypeError.
    + now exists e.
  - intros ys Hys. unfold normalize. rewrite Hload; simpl.
    rewrite Hys; simpl. rewrite Hm. reflexivity.
Qed.

Lemma normalize_Ok_genres (df : list Csv.Row) (movies : list Movie) :
  normalize df = Ok movies ->
  Forall (fun r => exists g, Csv.Genre r = Some g) (dropna_Year (subject_rows df)).
Proof.
  intros H. apply Forall_forall. intros r Hin.
  destruct (Csv.Genre r) as [g|] eqn:Hg; [now exists g |].
  destruct (normalize_missing_genre df r Hin Hg) as ([e He] & _).
  congruence.
Qed.

(** C10. A row that survives the subject filter and the year drop and
    whose Genre is NaN makes [assign_motif] raise [TypeError] (it is
    neither labelled "Other" nor left out), so that normalization of the
    whole data set raises; it raises this very [TypeError] whenever the
    year cast before it went through. *)
Theorem missing_genre_breaks_normalization
        (df rows : list Csv.Row) (r : Csv.Row)
        (Hload : load_data df = Ok rows)
        (Hsurvives : In r (dropna_Year rows))
        (Hmissing : Csv.Genre r = None) :
  assign_motif (Csv.Genre r) = Raise TypeError
  /\ (exists e, normalize df = Raise e)
  /\ (forall ys,
         mapM (fun r => astype_int (Csv.Year r)) (dropna_Year rows) = Ok ys ->
         normalize df = Raise TypeError).
Proof.
  apply load_data_Ok in Hload. subst rows. split.
  - rewrite Hmissing. apply assign_motif_missing.
  - now apply normalize_missing_genre with (r := r).
Qed.

Lemma missing_genre_breaks_normalization_witness :
  load_data [Sample.face_off; Sample.row_without_genre; Sample.row_other_actor]
  = Ok [Sample.face_off; Sample.row_without_genre]
  /\ In Sample.row_without_genre
        (dropna_Year [Sample.face_off; Sample.row_without_genre])
  /\ Csv.Genre Sample.row_without_genre = None
  /\ assign_motif (Csv.Genre Sample.row_without_genre) = Raise TypeError
  /\ (exists e,
         normalize [Sample.face_off; Sample.row_without_genre;
                    Sample.row_other_actor] = Raise e)
  /\ (forall ys,
         mapM (fun r => astype_int (Csv.Year r))
              (dropna_Year [Sample.face_off; Sample.row_without_genre]) = Ok ys ->
         normalize [Sample.face_off; Sample.row_without_genre;
                    Sample.row_other_actor] = Raise TypeError).
Proof.
  split; [reflexivity |].
  split; [simpl; right; left; reflexivity |].
  split; [reflexivity |].
  apply (missing_genre_breaks_normalization
           [Sample.face_off; Sample.row_without_genre; Sample.row_other_actor]
           [Sample.face_off; Sample.row_without_genre]
           Sample.row_without_genre).
  - reflexivity.
  - simpl. right. left. reflexivity.
  - reflexivity.
Defined.

(* ================================================================== *)
(** * Subject filter *)

Lemma subject_rows_In (df : list Csv.Row) (r : Csv.Row) :
  In r (subject_rows df) <->
  In r df /\ exists cast, Csv.Cast r = Some cast
                          /\ PyStr.substring_of SUBJECT cast.
Proof.
  unfold subject_rows. rewrite filter_In.
  unfold Pandas.str_contains. destruct (Csv.Cast r) as [cast|].
  - rewrite PyStrFacts.contains_iff. split.
    + intros [Hin Hs]. split; [exact Hin | now exists cast].
    + intros [Hin (c & Hc & Hs)]. injection Hc as <-. now split.
  - split; [intros [_ H]; discriminate | intros [_ (c & Hc & _)]; discriminate].
Qed.

Lemma load_data_raises_iff (df : list Csv.Row) :
  load_data df = Raise AttributeError <->
  df <> [] /\ Forall (fun r => Csv.Cast r = None) df.
Proof.
  unfold load_data.
  destruct (str_accessor_cases (map Csv.Cast df)) as [E | E]; rewrite E; simpl.
  - split; [discriminate |]. intros [Hne Hall]. exfalso.
    assert (H : Pandas.str_accessor (map Csv.Cast df) = Raise AttributeError).
    { apply str_accessor_raises. split.
      - destruct df; [now elim Hne | discriminate].
      - now apply Forall_map. }
    congruence.
  - split; [intros _ | reflexivity].
    apply str_accessor_raises in E as [Hne Hall]. split.
    + intros ->. now elim Hne.
    + now apply Forall_map in Hall.
Qed.

(** C4. On a data set that has rows and no Cast text in any of them,
    [load_data] raises [AttributeError] (so on the single row
    [Sample.row_without_cast]) instead of returning no row.  On every
    other data set, an empty one or one with some Cast text, it returns
    exactly the rows whose Cast is a string having the subject's name
    as a substring, character for character, and so none whose Cast is
    NaN. *)
Theorem load_data_raises_without_cast_text (df : list Csv.Row) :
  load_data [Sample.row_without_cast] = Raise AttributeError
  /\ (load_data df = Raise AttributeError <->
      df <> [] /\ Forall (fun r => Csv.Cast r = None) df)
  /\ (df = [] \/ (exists r, In r df /\ Csv.Cast r <> None) ->
      exists rows,
        load_data df = Ok rows
        /\ (forall r, In r rows <->
                      In r df /\ exists cast, Csv.Cast r = Some cast
                                              /\ PyStr.substring_of SUBJECT cast)
        /\ (forall r, Csv.Cast r = None -> ~ In r rows)).
Proof.
  split; [reflexivity |]. split; [apply load_data_raises_iff |].
  intros Hcase. exists (subject_rows df).
  assert (Hload : load_data df = Ok (subject_rows df)).
  { unfold load_data.
    destruct (str_accessor_cases (map Csv.Cast df)) as [-> | E]; [reflexivity |].
    apply str_accessor_raises in E as [Hne Hall]. exfalso.
    destruct Hcase as [-> | (r & Hr & Hc)]; [now elim Hne |].
    rewrite Forall_forall in Hall. apply Hc. apply Hall. now apply in_map. }
  split; [exact Hload |]. split; [apply subject_rows_In |].
  intros r Hnone Hin. apply subject_rows_In in Hin as [_ (c & Hc & _)]. congruence.
Qed.

Example load_data_case_sensitive :
  load_data [Sample.face_off; Sample.row_other_actor;
             {| Csv.Title := None; Csv.Year := YNaN; Csv.Genre := None;
                Csv.Rating := None; Csv.Duration := None;
                Csv.Director := None; Csv.Cast := Some "nicolas cage";
                Csv.Poster := None |}]
  = Ok [Sample.face_off].
Proof. reflexivity. Qed.

(* ================================================================== *)
(** * Interactive filter *)

Lemma filter_filter {A : Type} (f g : A -> bool) (l : list A) :
  filter f (filter g l) = filter (fun x => g x && f x) l.
Proof.
  induction l as [|x l IH]; simpl; [reflexivity |].
  destruct (g x); simpl; [destruct (f x) |]; rewrite ?IH; reflexivity.
Qed.

(** C9. Filtering the output of [apply_filters] again with the same
    selection (year range and motif, or "All") gives that output back. *)
Theorem apply_filters_idempotent (movies : list Movie) (sel : Selection) :
  apply_filters (apply_filters movies sel) sel = apply_filters movies sel.
Proof.
  unfold apply_filters.
  destruct (negb (String.eqb (selected_motif sel) "All")).
  - rewrite !filter_filter. apply filter_ext. intros m.
    now destruct (fst (yr sel) <=? Year_int m)%Z,
                 (Year_int m <=? snd (yr sel))%Z,
                 (String.eqb (Motif m) (selected_motif sel)).
  - rewrite filter_filter. apply filter_ext. intros m.
    now destruct (fst (yr sel) <=? Year_int m)%Z,
                 (Year_int m <=? snd (yr sel))%Z.
Qed.

(* ================================================================== *)
(** * Normalization: years and posters *)




Lemma kept_rows_as_filter (df : list Csv.Row) :
  dropna_Year (subject_rows df)
  = filter (fun r => Pandas.str_contains SUBJECT false (Csv.Cast r)
                     && negb (isna (Csv.Year r))) df.
Proof. unfold dropna_Year, subject_rows. apply filter_filter. Qed.

Lemma kept_row_iff (r : Csv.Row) :
  Pandas.str_contains SUBJECT false (Csv.Cast r) && negb (isna (Csv.Year r)) = true
  <-> Csv.Year r <> YNaN
      /\ exists cast, Csv.Cast r = Some cast /\ PyStr.substring_of SUBJECT cast.
Proof.
  rewrite andb_true_iff, negb_true_iff. unfold Pandas.str_contains.
  assert (Hy : isna (Csv.Year r) = false <-> Csv.Year r <> YNaN).
  { destruct (Csv.Year r); simpl; split; congruence. }
  rewrite Hy. destruct (Csv.Cast r) as [cast|].
  - rewrite PyStrFacts.contains_iff. split.
    + intros [Hs Hyr]. split; [exact Hyr | now exists cast].
    + intros [Hyr (c & Hc & Hs)]. injection Hc as <-. now split.
  - split; [intros [H _]; discriminate | intros [_ (c & Hc & _)]; discriminate].
Qed.



(* ================================================================== *)
(** * Normalization: the year cast *)

Lemma astype_int_number (q : Q) : astype_int (YNum q) = Ok (float_to_int64 q).
Proof. reflexivity. Qed.

Example trunc_cuts_the_fraction :
  trunc (19999 # 10) = 1999%Z /\ trunc (- 5 # 10) = 0%Z
  /\ trunc (- 19999 # 10) = (- 1999)%Z /\ trunc 2007 = 2007%Z.
Proof. repeat split. Qed.

Example astype_int_examples :
  astype_int (YNum (20249 # 10)) = Ok 2024%Z
  /\ astype_int (YNum (inject_Z (10 ^ 19))) = Ok INT64_MIN
  /\ astype_int (YInf false) = Raise ValueError
  /\ astype_int (YStr " 2007 ") = Ok 2007%Z
  /\ astype_int (YStr "2007.0") = Raise ValueError
  /\ astype_int (YStr "99999999999999999999") = Raise OverflowError.
Proof. repeat split. Qed.

Lemma trunc_toward_zero (q : Q) :
  (0 <= Qnum q -> trunc q = Qfloor q)%Z
  /\ (Qnum q <= 0 -> trunc q = Qceiling q)%Z.
Proof.
  unfold trunc, Qceiling, Qfloor. destruct q as [n d]; simpl. split.
  - intros H. now rewrite Z.quot_div_nonneg by lia.
  - intros H. rewrite <- (Z.opp_involutive n) at 1.
    rewrite Z.quot_opp_l by lia. rewrite Z.quot_div_nonneg by lia. reflexivity.
Qed.

(** C5. On a data set holding a film of the subject whose Year cell is
    the text "TBA", the row is kept by the year drop (only NaN is
    dropped), [int] rejects the text, and normalization, hence the whole
    script, raises [ValueError] instead of leaving the row out. *)
Theorem unparseable_year_raises :
  PyStr.int "TBA" = None
  /\ load_data [Sample.face_off; Sample.row_year_tba]
     = Ok [Sample.face_off; Sample.row_year_tba]
  /\ In Sample.row_year_tba
        (dropna_Year [Sample.face_off; Sample.row_year_tba])
  /\ normalize [Sample.face_off; Sample.row_year_tba] = Raise ValueError
  /\ (forall ui,
         app ui [Sample.face_off; Sample.row_year_tba] = Raise ValueError).
Proof.
  split; [reflexivity |]. split; [reflexivity |].
  split; [simpl; right; left; reflexivity |].
  split; [reflexivity |].
  intros ui. reflexivity.
Qed.

(* ================================================================== *)
(** * The empty frame *)

(** Every aggregate of the empty frame is empty, and the six statistics
    are NaN. *)
Lemma aggregates_empty :
  aggregates [] =
  {| r_counts := []; r_top_genres := [];
     r_rating_stats := {| avg := None; smin := None; smax := None |};
     r_duration_stats := {| avg := None; smin := None; smax := None |};
     r_rating_counts := []; r_duration_data := []; r_top5 := [];
     r_director_df := []; r_co_stars_df := [] |}.
Proof. reflexivity. Qed.

Lemma slider_bounds_nonempty (m : Movie) (movies : list Movie) :
  exists lo hi, slider_bounds (m :: movies) = Ok (lo, hi).
Proof.
  unfold slider_bounds, years, unique.
  assert (Hne : exists x t, Pandas.stable_sort Z.ltb
                    (map fst (Pandas.tally Z.eqb (map Year_int (m :: movies))))
                  = x :: t).
  { assert (Ht : forall l t, t <> [] ->
               fold_left (fun tbl x => Pandas.bump Z.eqb x tbl) l t <> []).
    { induction l as [|x l IH]; simpl; intros t Ht; [exact Ht |].
      apply IH. destruct t as [|[k c] t]; simpl; [discriminate |].
      destruct (Z.eqb k x); discriminate. }
    unfold Pandas.tally; simpl.
    specialize (Ht (map Year_int movies) [(Year_int m, 1)]).
    destruct (fold_left _ _ _) as [|[k c] t]; [exfalso; apply Ht; [discriminate | reflexivity] |].
    simpl. destruct (Pandas.stable_sort Z.ltb (map fst t)) as [|y t']; simpl.
    - now exists k, [].
    - destruct (Z.ltb y k); eauto. }
  destruct Hne as (x & t & ->). simpl. eauto.
Qed.

(** With at least one normalized row the slider is called, and when
    both widgets return, the script reaches the aggregates, whatever
    the selection keeps. *)
Lemma app_reaches_aggregates (ui : Widgets) (df : list Csv.Row)
      (m : Movie) (movies : list Movie) :
  normalize df = Ok (m :: movies) ->
  exists lo hi,
    slider_bounds (m :: movies) = Ok (lo, hi)
    /\ forall range motif,
        slider ui lo hi (lo, hi) = Ok range ->
        selectbox ui (top_motifs (m :: movies)) = Ok motif ->
        app ui df
        = Ok (aggregates (apply_filters (m :: movies)
                            {| yr := range; selected_motif := motif |})).
Proof.
  intros H. destruct (slider_bounds_nonempty m movies) as (lo & hi & Hb).
  exists lo, hi. split; [exact Hb |].
  intros range motif Hs Hm. unfold app. rewrite H; simpl. rewrite Hb; simpl.
  rewrite Hs; simpl. rewrite Hm; simpl. reflexivity.
Qed.

(** C1. When no row of the data set passes the subject filter, the
    normalized frame is empty, [min] of the empty list of years raises
    [ValueError] while the slider is set up, and the script ends there:
    no aggregate is computed. *)
Theorem app_without_subject_rows_raises
        (ui : Widgets) (df : list Csv.Row)
        (Hnone : load_data df = Ok []) :
  normalize df = Ok []
  /\ slider_bounds [] = Raise ValueError
  /\ app ui df = Raise ValueError.
Proof.
  assert (Hn : normalize df = Ok []) by (unfold normalize; now rewrite Hnone).
  split; [exact Hn |]. split; [reflexivity |].
  unfold app. rewrite Hn. reflexivity.
Qed.

Lemma app_without_subject_rows_raises_witness :
  load_data [Sample.row_other_actor] = Ok []
  /\ normalize [Sample.row_other_actor] = Ok []
  /\ slider_bounds [] = Raise ValueError
  /\ app Sample.untouched [Sample.row_other_actor] = Raise ValueError.
Proof.
  split; [reflexivity |].
  apply (app_without_subject_rows_raises Sample.untouched [Sample.row_other_actor]).
  reflexivity.
Defined.

(* ================================================================== *)
(** * Facts about the stable sort *)

Module SortFacts.
Import Pandas.

Lemma StronglySorted_firstn_skipn {A : Type} (R : A -> A -> Prop)
      (n : nat) (l : list A) :
  StronglySorted R l ->
  StronglySorted R (firstn n l)
  /\ (forall a b, In a (firstn n l) -> In b (skipn n l) -> R a b).
Proof.
  revert l; induction n as [|n IH]; intros l Hs; simpl.
  - split; [constructor | intros a b []].
  - destruct l as [|x l]; [split; [constructor | intros a b []] |].
    apply StronglySorted_inv in Hs as [Hs Hx].
    destruct (IH l Hs) as [IH1 IH2]. split.
    + constructor; [exact IH1 |].
      rewrite Forall_forall in *. intros y Hy. apply Hx.
      rewrite <- (firstn_skipn n l). apply in_or_app. now left.
    + intros a b [<- | Ha] Hb.
      * rewrite Forall_forall in Hx. apply Hx.
        rewrite <- (firstn_skipn n l). apply in_or_app. now right.
      * now apply IH2.
Qed.

Lemma StronglySorted_weaken {A : Type} (R R' : A -> A -> Prop) (l : list A) :
  (forall a b, In a l -> In b l -> R a b -> R' a b) ->
  StronglySorted R l -> StronglySorted R' l.
Proof.
  intros HR Hs. induction Hs as [|x l Hs IH Hx]; constructor.
  - apply IH. intros a b Ha Hb. apply HR; now right.
  - rewrite Forall_forall in *. intros y Hy.
    apply HR; [now left | now right | now apply Hx].
Qed.

Lemma StronglySorted_snoc {A : Type} (R : A -> A -> Prop) (l : list A) (x : A) :
  StronglySorted R l -> Forall (fun a => R a x) l ->
  StronglySorted R (l ++ [x]).
Proof.
  intros Hs. induction Hs as [|y l Hs IH Hy]; intros Hx; simpl.
  - constructor; constructor.
  - inversion Hx; subst. constructor; [now apply IH |].
    apply Forall_app. split; [exact Hy | now constructor].
Qed.

Lemma StronglySorted_map {A B : Type} (f : A -> B) (R : B -> B -> Prop)
      (l : list A) :
  StronglySorted R (map f l) <-> StronglySorted (fun a b => R (f a) (f b)) l.
Proof.
  induction l as [|x l IH]; simpl; split; intros H; try constructor;
    apply StronglySorted_inv in H as [Hs Hx]; try (now apply IH).
  - now rewrite Forall_map in Hx.
  - now rewrite Forall_map.
Qed.

Section Stable.
Context {A : Type}.
Variable before : A -> A -> bool.

Lemma insert_stable_perm (x : A) (l : list A) :
  Permutation (insert_stable before x l) (x :: l).
Proof.
  induction l as [|y l IH]; simpl; [reflexivity |].
  destruct (before y x); [| reflexivity].
  rewrite IH. apply perm_swap.
Qed.

Lemma stable_sort_perm (l : list A) : Permutation (stable_sort before l) l.
Proof.
  induction l as [|x l IH]; simpl; [reflexivity |].
  rewrite insert_stable_perm. now constructor.
Qed.

Lemma stable_sort_In (l : list A) (x : A) :
  In x (stable_sort before l) <-> In x l.
Proof.
  split; apply Permutation_in;
    [| symmetry]; apply stable_sort_perm.
Qed.

(** A list already in order is left as it is. *)
Lemma stable_sort_id (l : list A) :
  StronglySorted (fun a b => before b a = false) l ->
  stable_sort before l = l.
Proof.
  induction 1 as [|x l Hs IH Hx]; simpl; [reflexivity |].
  rewrite IH. destruct l as [|y l]; simpl; [reflexivity |].
  inversion Hx as [|? ? Hy _]; subst. now rewrite Hy.
Qed.

Hypothesis before_asym : forall a b, before a b = true -> before b a = false.
Hypothesis before_cotrans :
  forall a b c, before a c = true -> before a b = true \/ before b c = true.

Variable earlier : A -> A -> Prop.

Lemma insert_stable_sorted (x : A) (l : list A) :
  Forall (earlier x) l ->
  StronglySorted (ranked before earlier) l ->
  StronglySorted (ranked before earlier) (insert_stable before x l).
Proof.
  intros Hx Hs. induction Hs as [|y l Hs IH Hy]; simpl.
  - constructor; constructor.
  - inversion Hx as [|? ? Hxy Hxl]; subst.
    destruct (before y x) eqn:E.
    + constructor; [now apply IH |].
      apply (Permutation_Forall (Permutation_sym (insert_stable_perm x l))).
      constructor; [| exact Hy].
      split; [now apply before_asym | now left].
    + constructor; [now constructor |].
      constructor; [split; [exact E | now right] |].
      rewrite Forall_forall in *. intros z Hz.
      split; [| right; now apply Hxl].
      destruct (before z x) eqn:Ez; [| reflexivity].
      destruct (before_cotrans z y x Ez) as [H | H]; [| congruence].
      destruct (Hy z Hz) as [Hzy _]. congruence.
Qed.

(** The stable sort orders by [before] and, between rows that
    [before] does not separate, by the input order. *)
Lemma stable_sort_sorted (l : list A) :
  StronglySorted earlier l ->
  StronglySorted (ranked before earlier) (stable_sort before l).
Proof.
  induction 1 as [|x l Hs IH Hx]; simpl; [constructor |].
  apply insert_stable_sorted; [| exact IH].
  apply (Permutation_Forall (Permutation_sym (stable_sort_perm l))). exact Hx.
Qed.
End Stable.

Lemma stable_sort_map {A B : Type} (f : A -> B) (before : B -> B -> bool)
      (l : list A) :
  stable_sort before (map f l)
  = map f (stable_sort (fun a b => before (f a) (f b)) l).
Proof.
  induction l as [|x l IH]; simpl; [reflexivity |].
  rewrite IH. generalize (stable_sort (fun a b => before (f a) (f b)) l).
  intros s. induction s as [|y s IHs]; simpl; [reflexivity |].
  destruct (before (f y) (f x)); simpl; [now rewrite IHs | reflexivity].
Qed.

End SortFacts.

(* ================================================================== *)
(** * Facts about counting *)

Module CountFacts.
Import Pandas.

Lemma dropna_In {A : Type} (s : list (option A)) (x : A) :
  In x (dropna s) <-> In (Some x) s.
Proof.
  unfold dropna. rewrite in_flat_map. split.
  - intros ([y|] & Hin & Hx); simpl in Hx; [| contradiction].
    destruct Hx as [-> | []]. exact Hin.
  - intros H. exists (Some x). split; [exact H | now left].
Qed.

Section Tally.
Context {A : Type}.
Variable eqb : A -> A -> bool.
Hypothesis eqb_eq : forall x y, eqb x y = true <-> x = y.

Lemma eqb_refl (x : A) : eqb x x = true.
Proof. now apply eqb_eq. Qed.

Lemma eqb_neq (x y : A) : x <> y -> eqb x y = false.
Proof.
  intros H. destruct (eqb x y) eqn:E; [| reflexivity].
  apply eqb_eq in E. contradiction.
Qed.

Lemma eq_dec (x y : A) : {x = y} + {x <> y}.
Proof.
  destruct (eqb x y) eqn:E; [left; now apply eqb_eq | right].
  intros H. apply eqb_eq in H. congruence.
Qed.

Lemma count_app (k : A) (l1 l2 : list A) :
  count eqb k (l1 ++ l2) = count eqb k l1 + count eqb k l2.
Proof. induction l1 as [|y l1 IH]; simpl; [reflexivity | rewrite IH; lia]. Qed.

Lemma count_notin (k : A) (l : list A) : ~ In k l -> count eqb k l = 0.
Proof.
  induction l as [|y l IH]; simpl; intros H; [reflexivity |].
  rewrite eqb_neq by (intros ->; apply H; now left).
  apply IH. intros Hin. apply H. now right.
Qed.

Lemma count_in (k : A) (l : list A) : In k l -> 0 < count eqb k l.
Proof.
  induction l as [|y l IH]; simpl; [tauto |].
  intros [-> | H]; [rewrite eqb_refl; lia |].
  specialize (IH H). lia.
Qed.

Lemma first_index_app_in (k : A) (l1 l2 : list A) :
  In k l1 ->
  first_index eqb k (l1 ++ l2) = first_index eqb k l1
  /\ first_index eqb k l1 < List.length l1.
Proof.
  induction l1 as [|y l1 IH]; simpl; [tauto |].
  intros H. destruct (eqb y k) eqn:E; [split; [reflexivity | lia] |].
  destruct H as [-> | H]; [rewrite eqb_refl in E; discriminate |].
  destruct (IH H) as [-> Hlt]. split; [reflexivity | lia].
Qed.

Lemma first_index_app_notin (k : A) (l1 l2 : list A) :
  ~ In k l1 ->
  first_index eqb k (l1 ++ k :: l2) = List.length l1.
Proof.
  induction l1 as [|y l1 IH]; simpl; intros H.
  - now rewrite eqb_refl.
  - rewrite eqb_neq by (intros ->; apply H; now left).
    f_equal. apply IH. intros Hin. apply H. now right.
Qed.

Lemma bump_keys_in (x : A) (tbl : list (A * nat)) :
  In x (map fst tbl) -> map fst (bump eqb x tbl) = map fst tbl.
Proof.
  induction tbl as [|[k c] t IH]; simpl; [tauto |].
  intros H. destruct (eqb k x) eqn:E; simpl; [reflexivity |].
  f_equal. apply IH. destruct H as [-> | H]; [| exact H].
  rewrite eqb_refl in E. discriminate.
Qed.

Lemma bump_keys_notin (x : A) (tbl : list (A * nat)) :
  ~ In x (map fst tbl) -> map fst (bump eqb x tbl) = map fst tbl ++ [x].
Proof.
  induction tbl as [|[k c] t IH]; simpl; intros H; [reflexivity |].
  rewrite eqb_neq by (intros ->; apply H; now left). simpl.
  f_equal. apply IH. intros Hin. apply H. now right.
Qed.

Lemma bump_In (x : A) (tbl : list (A * nat)) (k : A) (c : nat) :
  NoDup (map fst tbl) ->
  In (k, c) (bump eqb x tbl) ->
  (k <> x /\ In (k, c) tbl)
  \/ (k = x /\ exists c', c = S c' /\ In (x, c') tbl)
  \/ (k = x /\ c = 1 /\ ~ In x (map fst tbl)).
Proof.
  induction tbl as [|[k0 c0] t IH]; simpl; intros Hnd Hin.
  - destruct Hin as [H | []]. injection H as <- <-.
    right; right. repeat split. tauto.
  - apply NoDup_cons_iff in Hnd as [Hk0 Hnd].
    destruct (eqb k0 x) eqn:E.
    + apply eqb_eq in E as ->. destruct Hin as [H | H].
      * injection H as <- <-. right; left. split; [reflexivity |].
        exists c0. split; [reflexivity | now left].
      * left. split; [| now right].
        intros ->. apply Hk0. apply (in_map fst) in H. exact H.
    + assert (Hne : k0 <> x).
      { intros ->. rewrite eqb_refl in E. discriminate. }
      destruct Hin as [H | H].
      * injection H as <- <-. left. split; [exact Hne | now left].
      * destruct (IH Hnd H) as [[H1 H2] | [(H1 & c' & H2 & H3) | (H1 & H2 & H3)]].
        -- left. split; [exact H1 | now right].
        -- right; left. split; [exact H1 |]. exists c'. split; [exact H2 | now right].
        -- right; right. repeat split; [exact H1 | exact H2 |].
           intros [H4 | H4]; [now apply Hne | now apply H3].
Qed.

Lemma tally_snoc (l : list A) (x : A) :
  tally eqb (l ++ [x]) = bump eqb x (tally eqb l).
Proof. unfold tally. now rewrite fold_left_app. Qed.

(** What the hash-table pass computes: each distinct value once, in
    order of first appearance, with its number of occurrences. *)
Lemma tally_spec (l : list A) :
  NoDup (map fst (tally eqb l))
  /\ (forall k, In k (map fst (tally eqb l)) <-> In k l)
  /\ (forall k c, In (k, c) (tally eqb l) -> c = count eqb k l)
  /\ StronglySorted (fun a b => first_index eqb a l < first_index eqb b l)
                    (map fst (tally eqb l)).
Proof.
  induction l as [|x l (Hnd & Hkeys & Hcount & Hsorted)] using rev_ind.
  - repeat split; simpl; try tauto; constructor.
  - rewrite tally_snoc.
    destruct (in_dec eq_dec x (map fst (tally eqb l))) as [Hin | Hnin].
    + rewrite (bump_keys_in _ _ Hin). repeat split.
      * exact Hnd.
      * rewrite Hkeys. intros H. apply in_or_app. now left.
      * rewrite Hkeys. intros H. apply in_app_or in H as [H | [<- | []]];
          [exact H | now apply Hkeys].
      * intros k c H. rewrite count_app; simpl.
        apply (bump_In _ _ _ _ Hnd) in H
          as [[H1 H2] | [(-> & c' & -> & H2) | (_ & _ & H3)]].
        -- rewrite (eqb_neq x k) by congruence. rewrite (Hcount _ _ H2). lia.
        -- rewrite eqb_refl. rewrite (Hcount _ _ H2). lia.
        -- contradiction.
      * apply (SortFacts.StronglySorted_weaken
                 (fun a b => first_index eqb a l < first_index eqb b l));
          [| exact Hsorted].
        intros a b Ha Hb Hlt. apply Hkeys in Ha, Hb.
        destruct (first_index_app_in a l [x] Ha) as [-> _].
        destruct (first_index_app_in b l [x] Hb) as [-> _]. exact Hlt.
    + rewrite (bump_keys_notin _ _ Hnin).
      assert (Hxl : ~ In x l) by (intros H; apply Hnin; now apply Hkeys).
      repeat split.
      * apply NoDup_app; [exact Hnd | repeat constructor; tauto |].
        intros a Ha [<- | []]. contradiction.
      * intros H. apply in_app_or in H as [H | H];
          apply in_or_app; [left; now apply Hkeys | now right].
      * intros H. apply in_app_or in H as [H | H];
          apply in_or_app; [left; now apply Hkeys | now right].
      * intros k c H. rewrite count_app; simpl.
        apply (bump_In _ _ _ _ Hnd) in H
          as [[H1 H2] | [(-> & c' & -> & H2) | (-> & -> & H3)]].
        -- rewrite (eqb_neq x k) by congruence. rewrite (Hcount _ _ H2). lia.
        -- exfalso. apply Hnin. apply (in_map fst) in H2. exact H2.
        -- rewrite eqb_refl, (count_notin _ _ Hxl). reflexivity.
      * apply SortFacts.StronglySorted_snoc.
        -- apply (SortFacts.StronglySorted_weaken
                    (fun a b => first_index eqb a l < first_index eqb b l));
             [| exact Hsorted].
           intros a b Ha Hb Hlt. apply Hkeys in Ha, Hb.
           destruct (first_index_app_in a l [x] Ha) as [-> _].
           destruct (first_index_app_in b l [x] Hb) as [-> _]. exact Hlt.
        -- apply Forall_forall. intros a Ha. apply Hkeys in Ha.
           destruct (first_index_app_in a l [x] Ha) as [-> Hlt].
           now rewrite (first_index_app_notin x l [] Hxl).
Qed.
End Tally.
End CountFacts.

(* ================================================================== *)
(** * The five most frequent values of a column *)

Module TopFacts.
Import Pandas.

Lemma skipn_In_length {A : Type} (n : nat) (l : list A) (x : A) :
  In x (skipn n l) -> List.length (firstn n l) = n.
Proof.
  intros H. rewrite length_firstn.
  destruct (le_lt_dec (List.length l) n) as [Hle | Hlt]; [| lia].
  rewrite (skipn_all2 l Hle) in H. contradiction.
Qed.

Section Top.
Context {A : Type}.
Variable eqb : A -> A -> bool.
Hypothesis eqb_eq : forall x y, eqb x y = true <-> x = y.

Lemma count_gt_asym (a b : A * nat) :
  count_gt a b = true -> count_gt b a = false.
Proof.
  unfold count_gt. rewrite Nat.ltb_lt, Nat.ltb_ge. lia.
Qed.

Lemma count_gt_cotrans (a b c : A * nat) :
  count_gt a c = true -> count_gt a b = true \/ count_gt b c = true.
Proof.
  unfold count_gt. rewrite !Nat.ltb_lt. lia.
Qed.

Lemma ranked_outranks (l : list A) (a b : A * nat) :
  ranked count_gt
         (fun a b => first_index eqb (fst a) l < first_index eqb (fst b) l)
         a b ->
  outranks eqb l a b.
Proof.
  unfold ranked, outranks, count_gt.
  rewrite Nat.ltb_ge, Nat.ltb_lt. intros [Hle [Hlt | Hidx]]; [now left |].
  destruct (Nat.eq_dec (snd a) (snd b)); [right; now split | left; lia].
Qed.

(** [value_counts] followed by [nlargest n]: at most [n] entries,
    one per value, each with the number of occurrences of its value
    among the cells that are not NaN; the entries are in rank order,
    and every value left out is outranked by every entry. *)
Lemma nlargest_value_counts_spec (n : nat) (s : list (option A)) :
  let toks := dropna s in
  let res := nlargest n (value_counts eqb s) in
  List.length res <= n
  /\ NoDup (map fst res)
  /\ (forall k c, In (k, c) res -> In k toks /\ c = count eqb k toks)
  /\ StronglySorted (outranks eqb toks) res
  /\ (forall k, In k toks -> ~ In k (map fst res) ->
                List.length res = n
                /\ Forall (fun a => outranks eqb toks a (k, count eqb k toks)) res).
Proof.
  intros toks res.
  destruct (CountFacts.tally_spec eqb eqb_eq toks)
    as (Hnd & Hkeys & Hcount & Hfirst).
  set (earlier := fun a b : A * nat =>
                    first_index eqb (fst a) toks < first_index eqb (fst b) toks).
  set (V := stable_sort count_gt (tally eqb toks)).
  assert (Hperm : Permutation V (tally eqb toks))
    by apply SortFacts.stable_sort_perm.
  assert (Hranked : StronglySorted (ranked count_gt earlier) V).
  { apply SortFacts.stable_sort_sorted.
    - exact count_gt_asym.
    - exact count_gt_cotrans.
    - exact (proj1 (SortFacts.StronglySorted_map fst
                      (fun a b => first_index eqb a toks < first_index eqb b toks)
                      (tally eqb toks)) Hfirst). }
  assert (Hres : res = firstn n V).
  { unfold res, nlargest, value_counts. fold toks. fold V. f_equal.
    apply SortFacts.stable_sort_id.
    apply (SortFacts.StronglySorted_weaken (ranked count_gt earlier));
      [| exact Hranked].
    intros a b _ _ [H _]. exact H. }
  assert (Hout : StronglySorted (outranks eqb toks) V).
  { apply (SortFacts.StronglySorted_weaken (ranked count_gt earlier));
      [| exact Hranked].
    intros a b _ _. apply ranked_outranks. }
  destruct (SortFacts.StronglySorted_firstn_skipn _ n V Hout) as [Hsorted Hcut].
  assert (HinV : forall a, In a res -> In a V).
  { intros a Ha. rewrite Hres in Ha. rewrite <- (firstn_skipn n V).
    apply in_or_app. now left. }
  assert (HV : forall k c, In (k, c) V -> In k toks /\ c = count eqb k toks).
  { intros k c H. apply (Permutation_in _ Hperm) in H. split.
    - apply Hkeys. apply (in_map fst) in H. exact H.
    - now apply Hcount. }
  split; [rewrite Hres; apply firstn_le_length |].
  split.
  { rewrite Hres. apply (NoDup_app_remove_r _ (map fst (skipn n V))).
    rewrite <- map_app, firstn_skipn.
    apply (Permutation_NoDup (Permutation_map fst (Permutation_sym Hperm))).
    exact Hnd. }
  split; [intros k c H; apply HV; now apply HinV |].
  split; [now rewrite Hres |].
  intros k Hk Hout_k.
  assert (Hin : In (k, count eqb k toks) V).
  { apply Hkeys in Hk. apply in_map_iff in Hk as ([k' c] & Hfst & Hin).
    simpl in Hfst; subst k'. rewrite <- (Hcount _ _ Hin).
    apply (Permutation_in _ (Permutation_sym Hperm)). exact Hin. }
  rewrite <- (firstn_skipn n V) in Hin. apply in_app_or in Hin as [Hin | Hin].
  - exfalso. apply Hout_k. rewrite Hres.
    apply (in_map fst) in Hin. exact Hin.
  - split; [rewrite Hres; now apply (skipn_In_length n V _ Hin) |].
    apply Forall_forall. intros a Ha. rewrite Hres in Ha. now apply Hcut.
Qed.
End Top.

Lemma string_eqb_eq (x y : string) : String.eqb x y = true <-> x = y.
Proof. apply String.eqb_eq. Qed.

End TopFacts.

(* ================================================================== *)
(** * Genre breakdown and co-stars *)

Lemma dropna_app {A : Type} (s1 s2 : list (option A)) :
  Pandas.dropna (s1 ++ s2) = Pandas.dropna s1 ++ Pandas.dropna s2.
Proof. unfold Pandas.dropna. apply flat_map_app. Qed.

Lemma dropna_map_Some {A : Type} (l : list A) : Pandas.dropna (map Some l) = l.
Proof. induction l as [|x l IH]; simpl; [reflexivity | now rewrite IH]. Qed.

(** The cells of [str.split(', ').explode()] that are not NaN are the
    tokens of the column. *)
Lemma dropna_explode_split (cells : list (option string)) :
  Pandas.dropna (Pandas.explode (Pandas.str_split ", " cells)) = tokens cells.
Proof.
  induction cells as [|c cells IH]; [reflexivity |].
  change (Pandas.explode (Pandas.str_split ", " (c :: cells)))
    with (match option_map (PyStr.split ", ") c with
          | Some (x :: t) => map Some (x :: t)
          | _ => [None]
          end ++ Pandas.explode (Pandas.str_split ", " cells)).
  change (tokens (c :: cells))
    with (match c with
          | Some text => PyStr.split ", " text
          | None => []
          end ++ tokens cells).
  rewrite dropna_app, IH. f_equal.
  destruct c as [text|]; simpl; [| reflexivity].
  unfold PyStr.split.
  destruct (PyStr.split_from ", " 0 text) as [|t ts] eqn:E.
  - now apply PyStrFacts.split_from_nonempty in E.
  - apply (dropna_map_Some (t :: ts)).
Qed.

Lemma dropna_filter_ne (v : string) (s : list (option string)) :
  Pandas.dropna (filter (Pandas.ne v) s)
  = filter (fun x => negb (String.eqb x v)) (Pandas.dropna s).
Proof.
  induction s as [|[x|] s IH]; simpl; [reflexivity | |].
  - destruct (negb (String.eqb x v)); simpl; now rewrite IH.
  - exact IH.
Qed.

Lemma split_head_char (sep : string) (s : string) (a : ascii) (t : string)
      (ts : list string) :
  PyStr.split_from sep 0 s = String a t :: ts -> exists s', s = String a s'.
Proof.
  destruct s as [|c s]; simpl; [discriminate |].
  destruct (PyStr.startswith sep (String c s)); [discriminate |].
  destruct (PyStr.split_from sep 0 s); intros H; injection H as <- _ _; eauto.
Qed.

Lemma contains_cons (k : string) (c : ascii) (t : string) :
  PyStr.contains k (String c t)
  = PyStr.startswith k (String c t) || PyStr.contains k t.
Proof. reflexivity. Qed.

Lemma startswith_comma_space (c : ascii) (x : string) :
  PyStr.startswith ", " (String c x)
  = Ascii.eqb "," c && match x with
                       | String d _ => Ascii.eqb " " d && true
                       | EmptyString => false
                       end.
Proof. destruct x; reflexivity. Qed.

(** No piece that [split] cuts at ", " holds ", ". *)
Lemma split_pieces_free (s : string) :
  Forall (fun t => PyStr.contains ", " t = false) (PyStr.split_from ", " 0 s)
  /\ Forall (fun t => PyStr.contains ", " t = false) (PyStr.split_from ", " 1 s).
Proof.
  induction s as [|c s [IH0 IH1]].
  - split; repeat constructor.
  - split; [| exact IH0].
    change (PyStr.split_from ", " 0 (String c s))
      with (if PyStr.startswith ", " (String c s)
            then EmptyString :: PyStr.split_from ", " 1 s
            else match PyStr.split_from ", " 0 s with
                 | t :: ts => String c t :: ts
                 | [] => [String c EmptyString]
                 end).
    destruct (PyStr.startswith ", " (String c s)) eqn:E.
    + constructor; [reflexivity | exact IH1].
    + destruct (PyStr.split_from ", " 0 s) as [|t ts] eqn:Es;
        [now apply PyStrFacts.split_from_nonempty in Es |].
      inversion IH0 as [|? ? Ht Hts]; subst. constructor; [| exact Hts].
      rewrite contains_cons, Ht, orb_false_r.
      destruct (PyStr.startswith ", " (String c t)) eqn:Et; [| reflexivity].
      exfalso. rewrite startswith_comma_space in Et.
      apply andb_true_iff in Et as [Hc Hsp].
      destruct t as [|a t']; [discriminate |].
      destruct (split_head_char _ _ _ _ _ Es) as [s' ->].
      rewrite startswith_comma_space, Hc, Hsp in E. discriminate.
Qed.

Lemma split_cut_at (text : string) : cut_at ", " text (PyStr.split ", " text).
Proof.
  split; [apply PyStrFacts.split_from_nonempty |].
  split; [apply PyStrFacts.split_join; discriminate |].
  destruct (split_pieces_free text) as [H _].
  apply (Forall_impl _ (P := fun t => PyStr.contains ", " t = false)); [| exact H].
  intros t Ht Hsub. apply PyStrFacts.contains_iff in Hsub. congruence.
Qed.

Lemma free_piece_startswith (c : ascii) (t : string) (rest : string) :
  PyStr.contains ", " (String c t) = false ->
  PyStr.startswith ", " (String c (t ++ ", " ++ rest)) = false
  /\ PyStr.startswith ", " (String c t) = false
  /\ PyStr.contains ", " t = false.
Proof.
  rewrite contains_cons. intros H. apply orb_false_iff in H as [Hs Hc].
  split; [| now split].
  rewrite startswith_comma_space in *.
  destruct (Ascii.eqb "," c); [| reflexivity]. cbn [andb] in *.
  destruct t as [|d t']; [reflexivity |].
  change (String d t' ++ ", " ++ rest)%string
    with (String d (t' ++ ", " ++ rest)%string).
  exact Hs.
Qed.

Lemma split_single_piece (t : string) :
  PyStr.contains ", " t = false -> PyStr.split_from ", " 0 t = [t].
Proof.
  induction t as [|c t IH]; [reflexivity |]. intros H.
  destruct (free_piece_startswith c t EmptyString H) as (_ & Hs & Hc).
  change (PyStr.split_from ", " 0 (String c t))
    with (if PyStr.startswith ", " (String c t)
          then EmptyString :: PyStr.split_from ", " 1 t
          else match PyStr.split_from ", " 0 t with
               | x :: xs => String c x :: xs
               | [] => [String c EmptyString]
               end).
  now rewrite Hs, (IH Hc).
Qed.

Lemma split_first_piece (t rest : string) :
  PyStr.contains ", " t = false ->
  PyStr.split_from ", " 0 (t ++ ", " ++ rest) = t :: PyStr.split_from ", " 0 rest.
Proof.
  induction t as [|c t IH]; [reflexivity |]. intros H.
  destruct (free_piece_startswith c t rest H) as (Hs & _ & Hc).
  change (PyStr.split_from ", " 0 (String c t ++ ", " ++ rest))
    with (if PyStr.startswith ", " (String c (t ++ ", " ++ rest))
          then EmptyString :: PyStr.split_from ", " 1 (t ++ ", " ++ rest)
          else match PyStr.split_from ", " 0 (t ++ ", " ++ rest) with
               | x :: xs => String c x :: xs
               | [] => [String c EmptyString]
               end).
  now rewrite Hs, (IH Hc).
Qed.

(** The pieces are determined by the text: [split] is the only way to
    cut it at ", ". *)
Lemma cut_at_unique (text : string) (pieces : list string) :
  cut_at ", " text pieces -> pieces = PyStr.split ", " text.
Proof.
  intros (Hne & Hjoin & Hfree). subst text. unfold PyStr.split.
  induction pieces as [|t ts IH]; [now elim Hne |].
  inversion Hfree as [|? ? Ht Hts]; subst.
  assert (Hc : PyStr.contains ", " t = false).
  { destruct (PyStr.contains ", " t) eqn:E; [| reflexivity].
    apply PyStrFacts.contains_iff in E. contradiction. }
  destruct ts as [|t2 ts].
  - simpl. now rewrite split_single_piece.
  - change (String.concat ", " (t :: t2 :: ts))
      with (t ++ ", " ++ String.concat ", " (t2 :: ts))%string.
    rewrite split_first_piece by exact Hc. f_equal.
    apply IH; [discriminate | exact Hts].
Qed.

Lemma flattened_tokens (cells : list (option string)) :
  flattened ", " cells (tokens cells).
Proof.
  induction cells as [|[text|] cells IH]; [constructor | |].
  - apply (flattened_text ", " text cells (PyStr.split ", " text) (tokens cells));
      [apply split_cut_at | exact IH].
  - apply (flattened_nan ", " cells (tokens cells)). exact IH.
Qed.

Lemma flattened_unique (cells : list (option string)) (toks : list string) :
  flattened ", " cells toks -> toks = tokens cells.
Proof.
  induction 1 as [|text cells pieces toks Hcut _ IH|cells toks _ IH].
  - reflexivity.
  - rewrite (cut_at_unique text pieces Hcut), IH. reflexivity.
  - exact IH.
Qed.

(** C6. Cut every Genre string of the frame at each ", " and put the
    pieces of all rows one after the other: there is one such sequence
    of tokens, and with respect to it [top_genres] holds at most five
    entries, one per token; each entry carries the number of
    occurrences of its token in the sequence; the entries are listed by
    decreasing count and, at equal counts, in the order in which the
    tokens are first met in the sequence; and a token left out is
    outranked in that sense by each of the five entries. *)
Theorem top_genres_spec (filtered : list Movie) :
  (exists toks, flattened ", " (map Genre filtered) toks)
  /\ (forall toks,
         flattened ", " (map Genre filtered) toks ->
         let res := top_genres filtered in
         List.length res <= 5
         /\ NoDup (map fst res)
         /\ (forall g c, In (g, c) res ->
                         In g toks /\ c = Pandas.count String.eqb g toks)
         /\ StronglySorted (Pandas.outranks String.eqb toks) res
         /\ (forall g, In g toks -> ~ In g (map fst res) ->
                       List.length res = 5
                       /\ Forall (fun a => Pandas.outranks String.eqb toks a
                                             (g, Pandas.count String.eqb g toks))
                                 res)).
Proof.
  split; [exists (tokens (map Genre filtered)); apply flattened_tokens |].
  intros toks Hflat. apply flattened_unique in Hflat. subst toks.
  pose proof (TopFacts.nlargest_value_counts_spec
                String.eqb TopFacts.string_eqb_eq 5 (genres filtered)) as H.
  unfold genres in H. rewrite dropna_explode_split in H. exact H.
Qed.

Example genre_pieces :
  cut_at ", " "Action, Crime, Thriller" ["Action"; "Crime"; "Thriller"]
  /\ ~ cut_at ", " "Action, Crime, Thriller" ["Action, Crime, Thriller"]
  /\ ~ cut_at ", " "Action, Crime, Thriller" ["Action"; "Crime, Thriller"].
Proof.
  split; [| split].
  - rewrite (cut_at_unique _ _ (split_cut_at "Action, Crime, Thriller")) at 1.
    apply split_cut_at.
  - intros H. apply cut_at_unique in H. discriminate.
  - intros H. apply cut_at_unique in H. discriminate.
Qed.

Example top_genres_ties :
  top_genres [mkNormalized Sample.face_off 2007 "Action";
              mkNormalized Sample.honeymoon 2007 "Comedy";
              mkNormalized Sample.honeymoon 2008 "Comedy"]
  = [("Comedy", 2); ("Action", 1); ("Thriller", 1)].
Proof. reflexivity. Qed.

Lemma count_filter_ne (v k : string) (l : list string) :
  k <> v ->
  Pandas.count String.eqb k (filter (fun x => negb (String.eqb x v)) l)
  = Pandas.count String.eqb k l.
Proof.
  intros Hk. induction l as [|x l IH]; simpl; [reflexivity |].
  destruct (String.eqb x v) eqn:Ev; simpl.
  - apply String.eqb_eq in Ev as ->.
    rewrite (proj2 (String.eqb_neq v k)) by congruence. exact IH.
  - now rewrite IH.
Qed.

(** C8. The subject's name is never one of the names of [co_stars_df].
    Each entry is a token of some Cast string split on ", ", different
    from the subject's name, with the number of its occurrences among
    the cast tokens of the frame. *)
Theorem co_stars_exclude_subject (filtered : list Movie) :
  ~ In SUBJECT (map fst (co_stars_df filtered))
  /\ (forall name c,
         In (name, c) (co_stars_df filtered) ->
         name <> SUBJECT
         /\ In name (tokens (map Cast filtered))
         /\ c = Pandas.count String.eqb name (tokens (map Cast filtered))).
Proof.
  pose proof (TopFacts.nlargest_value_counts_spec
                String.eqb TopFacts.string_eqb_eq 5
                (filter (Pandas.ne SUBJECT)
                   (Pandas.explode (Pandas.str_split ", " (map Cast filtered)))))
    as (_ & _ & Hin & _).
  rewrite dropna_filter_ne, dropna_explode_split in Hin.
  fold (co_stars_df filtered) in Hin.
  assert (Hall : forall name c,
             In (name, c) (co_stars_df filtered) ->
             name <> SUBJECT
             /\ In name (tokens (map Cast filtered))
             /\ c = Pandas.count String.eqb name (tokens (map Cast filtered))).
  { intros name c H. destruct (Hin name c H) as [Hname ->].
    apply filter_In in Hname as [Htok Hne].
    assert (Hneq : name <> SUBJECT).
    { intros ->. rewrite String.eqb_refl in Hne. discriminate. }
    repeat split; [exact Hneq | exact Htok | now apply count_filter_ne]. }
  split; [| exact Hall].
  intros H. apply in_map_iff in H as ([name c] & Hfst & H).
  simpl in Hfst; subst name. now destruct (Hall _ _ H) as [Hne _].
Qed.

(* ================================================================== *)
(** * Career highlights *)

Lemma Qltb_lt (a b : Q) : Qltb a b = true <-> (a < b)%Q.
Proof.
  unfold Qltb. rewrite negb_true_iff. split.
  - intros H. apply Qnot_le_lt. intros Hle.
    apply Qle_bool_iff in Hle. congruence.
  - intros H. destruct (Qle_bool b a) eqn:E; [| reflexivity].
    apply Qle_bool_iff in E. exfalso. now apply (Qlt_not_le a b).
Qed.

Lemma rating_gt_asym (a b : option Q) :
  rating_gt a b = true -> rating_gt b a = false.
Proof.
  destruct a as [x|], b as [y|]; simpl; try reflexivity; try discriminate.
  intros H. apply Qltb_lt in H.
  destruct (Qltb x y) eqn:E; [| reflexivity].
  apply Qltb_lt in E. exfalso. apply (Qlt_irrefl x). now apply Qlt_trans with y.
Qed.

Lemma rating_gt_cotrans (a b c : option Q) :
  rating_gt a c = true -> rating_gt a b = true \/ rating_gt b c = true.
Proof.
  destruct a as [x|], b as [y|], c as [z|]; simpl; auto; try discriminate.
  rewrite !Qltb_lt. intros H.
  destruct (Qlt_le_dec y x) as [Hlt | Hle]; [now left | right].
  now apply Qlt_le_trans with x.
Qed.

Lemma enumerate_from_In {A : Type} (l : list A) (start i : nat) (x : A) :
  In (i, x) (combine (seq start (List.length l)) l)
  <-> start <= i /\ nth_error l (i - start) = Some x.
Proof.
  revert start; induction l as [|y l IH]; intros start; simpl.
  - split; [tauto |]. intros [_ H]. destruct (i - start); discriminate.
  - rewrite IH. split.
    + intros [H | [Hle H]].
      * injection H as <- <-. rewrite Nat.sub_diag. split; [lia | reflexivity].
      * split; [lia |]. replace (i - start) with (S (i - S start)) by lia. exact H.
    + intros [Hle H]. destruct (i - start) as [|n] eqn:E; simpl in H.
      * left. injection H as <-. f_equal. lia.
      * right. split; [lia |]. replace (i - S start) with n by lia. exact H.
Qed.

Lemma enumerate_In {A : Type} (l : list A) (i : nat) (x : A) :
  In (i, x) (enumerate l) <-> nth_error l i = Some x.
Proof.
  unfold enumerate. rewrite enumerate_from_In, Nat.sub_0_r.
  split; [tauto | split; [lia | assumption]].
Qed.

Lemma combine_seq_fst {A : Type} (l : list A) (start : nat) :
  map fst (combine (seq start (List.length l)) l) = seq start (List.length l).
Proof.
  revert start; induction l as [|y l IH]; intros start; simpl;
    [reflexivity | now rewrite IH].
Qed.

Lemma combine_seq_snd {A : Type} (l : list A) (start : nat) :
  map snd (combine (seq start (List.length l)) l) = l.
Proof.
  revert start; induction l as [|y l IH]; intros start; simpl;
    [reflexivity | now rewrite IH].
Qed.

Lemma seq_increasing (start len : nat) : StronglySorted lt (seq start len).
Proof.
  revert start; induction len as [|len IH]; intros start; simpl; constructor.
  - apply IH.
  - apply Forall_forall. intros i Hi. apply in_seq in Hi. lia.
Qed.

Lemma enumerate_increasing {A : Type} (l : list A) :
  StronglySorted (fun a b : nat * A => fst a < fst b) (enumerate l).
Proof.
  apply (SortFacts.StronglySorted_map fst lt). unfold enumerate.
  rewrite combine_seq_fst. apply seq_increasing.
Qed.

Lemma rating_gt_iff (a b : option Q) :
  rating_gt a b = true <-> rated_higher a b.
Proof.
  destruct a as [x|], b as [y|]; simpl; try tauto.
  - apply Qltb_lt.
  - split; [discriminate | contradiction].
  - split; [discriminate | contradiction].
Qed.

Lemma ranked_outrates (a b : nat * Movie) :
  Pandas.ranked rating_before (fun a b : nat * Movie => fst a < fst b) a b ->
  outrates a b.
Proof.
  unfold Pandas.ranked, outrates, rating_before. intros [Hba Hab]. split.
  - intros H. apply rating_gt_iff in H. congruence.
  - destruct Hab as [H | H]; [left; now apply rating_gt_iff | now right].
Qed.

(** [nlargest(5, 'Rating')] seen on positions: the rows selected, with
    the positions they have in the frame. *)
Lemma nlargest_Rating_positions (n : nat) (filtered : list Movie) :
  let sel := firstn n (Pandas.stable_sort rating_before (enumerate filtered)) in
  nlargest_Rating n filtered = map snd sel
  /\ (forall i m, In (i, m) sel -> nth_error filtered i = Some m)
  /\ NoDup (map fst sel)
  /\ List.length sel = Nat.min n (List.length filtered)
  /\ StronglySorted outrates sel
  /\ (forall j m, nth_error filtered j = Some m -> ~ In j (map fst sel) ->
                  Forall (fun a => outrates a (j, m)) sel).
Proof.
  intros sel.
  set (V := Pandas.stable_sort rating_before (enumerate filtered)) in *.
  assert (Hperm : Permutation V (enumerate filtered))
    by apply SortFacts.stable_sort_perm.
  assert (Hsorted : StronglySorted outrates V).
  { apply (SortFacts.StronglySorted_weaken
             (Pandas.ranked rating_before (fun a b : nat * Movie => fst a < fst b))).
    { intros a b _ _. apply ranked_outrates. }
    apply (SortFacts.stable_sort_sorted rating_before).
    - intros a b. apply rating_gt_asym.
    - intros a b c. apply rating_gt_cotrans.
    - apply enumerate_increasing. }
  destruct (SortFacts.StronglySorted_firstn_skipn _ n V Hsorted) as [Hfirst Hcut].
  split.
  { unfold nlargest_Rating, sel. rewrite <- firstn_map. f_equal. unfold V.
    transitivity (Pandas.stable_sort
                    (fun a b => rating_gt (Rating a) (Rating b))
                    (map snd (enumerate filtered))).
    - unfold enumerate. now rewrite combine_seq_snd.
    - exact (SortFacts.stable_sort_map snd _ (enumerate filtered)). }
  split.
  { intros i m H. apply enumerate_In. apply (Permutation_in _ Hperm).
    rewrite <- (firstn_skipn n V). apply in_or_app. now left. }
  split.
  { unfold sel. apply (NoDup_app_remove_r _ (map fst (skipn n V))).
    rewrite <- map_app, firstn_skipn.
    apply (Permutation_NoDup (Permutation_map fst (Permutation_sym Hperm))).
    unfold enumerate. rewrite combine_seq_fst. apply seq_NoDup. }
  split.
  { unfold sel. rewrite length_firstn, (Permutation_length Hperm).
    unfold enumerate. rewrite length_combine, length_seq. lia. }
  split; [exact Hfirst |].
  intros j m Hj Hout. apply Forall_forall. intros a Ha. apply Hcut; [exact Ha |].
  apply enumerate_In in Hj. apply (Permutation_in _ (Permutation_sym Hperm)) in Hj.
  rewrite <- (firstn_skipn n V) in Hj. apply in_app_or in Hj as [Hj | Hj]; [| exact Hj].
  exfalso. apply Hout. apply (in_map fst) in Hj. exact Hj.
Qed.

Lemma Forall2_map_r {A B : Type} (f : A -> B) (R : A -> B -> Prop) (l : list A) :
  (forall a, R a (f a)) -> Forall2 R l (map f l).
Proof. intros H. induction l; simpl; constructor; auto. Qed.

(** At a frame of one film the rows of [top5] have a sixth column, and
    their Rating is text: they do not carry exactly the five fields. *)
Lemma top5_has_a_sixth_column :
  top5 [mkNormalized Sample.face_off 2007 "Action"]
  = [[ ("Title", Text "Face/Off"); ("Year_int", Int 2007);
       ("Rating", Text "8.5");
       ("Poster", Text "https://example.org/faceoff.jpg");
       ("Genre", Text "Action, Thriller"); ("Year", Text "2007") ]]
  /\ ~ Forall (fun row => map fst row = highlight_columns)
              (top5 [mkNormalized Sample.face_off 2007 "Action"]).
Proof.
  split; [reflexivity |].
  intros H. inversion H as [|row rows Hrow _]; subst. discriminate.
Qed.

(** C7. [top5] is made from the rows that [nlargest] selects: five of
    them, or all rows when the frame has fewer; they are listed by
    decreasing Rating (a row without Rating after every rated row) and,
    at equal Rating, in frame order; and each row left out is rated no
    higher than any selected row, and stands later in the frame than
    those it ties with.  Each row of [top5] carries the columns Title,
    Year_int, Rating, Poster, Genre and Year: Title, Year_int, Poster
    and Genre as the film has them, Rating as its text with one decimal
    and Year as the text of Year_int. *)
Theorem top5_stable_selection (filtered : list Movie) :
  exists sel : list (nat * Movie),
    (forall i m, In (i, m) sel -> nth_error filtered i = Some m)
    /\ NoDup (map fst sel)
    /\ List.length sel = Nat.min 5 (List.length filtered)
    /\ StronglySorted outrates sel
    /\ (forall j m, nth_error filtered j = Some m -> ~ In j (map fst sel) ->
                    Forall (fun a => outrates a (j, m)) sel)
    /\ Forall2 (fun im row =>
                  map fst row = highlight_columns ++ ["Year"]
                  /\ lookup "Title" row = Some (text_cell (Title (snd im)))
                  /\ lookup "Year_int" row = Some (Int (Year_int (snd im)))
                  /\ lookup "Rating" row
                     = Some (Text (format_rating (Rating (snd im))))
                  /\ lookup "Poster" row = Some (Text (Poster (snd im)))
                  /\ lookup "Genre" row = Some (text_cell (Genre (snd im)))
                  /\ lookup "Year" row
                     = Some (Text (str_of_int (Year_int (snd im)))))
               sel (top5 filtered).
Proof.
  destruct (nlargest_Rating_positions 5 filtered)
    as (Hsel & Hpos & Hnd & Hlen & Hsorted & Hout).
  eexists. split; [exact Hpos |]. split; [exact Hnd |]. split; [exact Hlen |].
  split; [exact Hsorted |]. split; [exact Hout |].
  unfold top5. rewrite Hsel, map_map.
  apply Forall2_map_r. intros im. repeat split.
Qed.

Example top5_ties_keep_frame_order :
  map (lookup "Title")
      (top5 [mkNormalized Sample.honeymoon 2007 "Comedy";
             mkNormalized Sample.row_without_genre 2011 "Other";
             mkNormalized Sample.face_off 2007 "Action";
             mkNormalized Sample.row_other_actor 2000 "Adventure";
             mkNormalized Sample.honeymoon 1992 "Comedy";
             mkNormalized Sample.face_off 1997 "Action"])
  = [Some (Text "Face/Off"); Some (Text "Face/Off"); Some (Text "Cast Away");
     Some (Text "Honeymoon in Vegas"); Some (Text "Honeymoon in Vegas")].
Proof. reflexivity. Qed.

Example format_rating_examples :
  format_rating (Some (85 # 10)) = "8.5" /\ format_rating (Some (6 # 1)) = "6.0"
  /\ format_rating (Some (1 # 4)) = "0.2" /\ format_rating (Some (3 # 4)) = "0.8"
  /\ format_rating (Some (- 1 # 25)) = "-0.0" /\ format_rating None = "nan"
  /\ str_of_int (- 44) = "-44".
Proof. repeat split. Qed.

(* ================================================================== *)
(** * The worked example *)

Example worked_example :
  exists movies,
    normalize [Sample.face_off; Sample.honeymoon] = Ok movies
    /\ counts (apply_filters movies Sample.all_years) = [(2007%Z, 2)]
    /\ top_genres (apply_filters movies Sample.all_years)
       = [("Action", 1); ("Thriller", 1); ("Comedy", 1)]
    /\ co_stars_df (apply_filters movies Sample.all_years)
       = [("John Travolta", 1); ("Sarah Jessica Parker", 1)]
    /\ map (lookup "Poster") (top5 (apply_filters movies Sample.all_years))
       = [Some (Text "https://example.org/faceoff.jpg");
          Some (Text DEFAULT_POSTER_URL)].
Proof.
  eexists. split; [reflexivity |]. repeat split.
Qed.

Example empty_selection :
  aggregates (apply_filters Sample.three_movies
                {| yr := (2008, 2010)%Z; selected_motif := "All" |})
  = aggregates [].
Proof. reflexivity. Qed.

Example app_untouched :
  app Sample.untouched [Sample.face_off; Sample.con_air]
  = Ok (aggregates [mkNormalized Sample.face_off 2007 "Action";
                    mkNormalized Sample.con_air 1997 "Action"]).
Proof. reflexivity. Qed.

(* ================================================================== *)
(** * Further properties: normalization *)

Lemma mapM_Ok_of_Forall {A B : Type} (f : A -> result B) (l : list A) :
  Forall (fun x => exists y, f x = Ok y) l -> exists ys, mapM f l = Ok ys.
Proof.
  induction 1 as [|x l [y Hy] _ [ys Hys]]; simpl.
  - now exists [].
  - rewrite Hy, Hys. simpl. now exists (y :: ys).
Qed.

Lemma Forall2_Forall_and {A B : Type} (R1 R2 : A -> B -> Prop)
      (l : list A) (l' : list B) :
  Forall2 (fun a b => R1 a b /\ R2 a b) l l' ->
  Forall (fun a => exists b, R1 a b) l.
Proof. induction 1 as [|a b l l' [H1 _] _ IH]; constructor; eauto. Qed.

Lemma Forall2_Forall_r {A B : Type} (R : A -> B -> Prop) (P : B -> Prop)
      (l : list A) (l' : list B) :
  Forall2 R l l' -> (forall a b, R a b -> P b) -> Forall P l'.
Proof. intros H HP. induction H; constructor; eauto. Qed.

Lemma forallb_false_exists {A : Type} (f : A -> bool) (l : list A) :
  forallb f l = false -> exists x, In x l /\ f x = false.
Proof.
  induction l as [|x l IH]; simpl; [discriminate |].
  destruct (f x) eqn:E; simpl.
  - intros H. destruct (IH H) as (y & Hy & Hf). exists y. split; [now right | exact Hf].
  - intros _. exists x. split; [now left | exact E].
Qed.

Lemma load_data_Ok_iff (df : list Csv.Row) :
  load_data df = Ok (subject_rows df) <->
  df = [] \/ exists r, In r df /\ Csv.Cast r <> None.
Proof.
  split.
  - intros H. destruct df as [|r0 df]; [now left | right].
    unfold load_data, Pandas.str_accessor in H.
    cbn [map] in H.
    destruct (forallb Pandas.missing (Csv.Cast r0 :: map Csv.Cast df)) eqn:E;
      [discriminate |].
    apply forallb_false_exists in E as (c & Hc & Hm).
    change (In c (map Csv.Cast (r0 :: df))) in Hc.
    apply in_map_iff in Hc as (r & <- & Hr). exists r. split; [exact Hr |].
    intros E. rewrite E in Hm. discriminate.
  - intros Hcase. unfold load_data.
    destruct (str_accessor_cases (map Csv.Cast df)) as [-> | E]; [reflexivity |].
    apply str_accessor_raises in E as [Hne Hall]. exfalso.
    destruct Hcase as [-> | (r & Hr & Hc)]; [now elim Hne |].
    rewrite Forall_forall in Hall. apply Hc. apply Hall. now apply in_map.
Qed.

(** X1. Normalization returns exactly when the data set is empty or
    has some Cast text, and every row whose Cast names the subject and
    whose Year is not NaN has a Year that the integer cast accepts and
    a Genre that is a string. *)
Theorem normalize_succeeds_iff (df : list Csv.Row) :
  (exists movies, normalize df = Ok movies) <->
  (df = [] \/ exists r, In r df /\ Csv.Cast r <> None)
  /\ (forall r,
         In r df ->
         (exists cast, Csv.Cast r = Some cast /\ PyStr.substring_of SUBJECT cast) ->
         Csv.Year r <> YNaN ->
         (exists y, astype_int (Csv.Year r) = Ok y)
         /\ (exists g, Csv.Genre r = Some g)).
Proof.
  assert (Hkept : forall r, In r (dropna_Year (subject_rows df)) <->
                            In r df /\ Csv.Year r <> YNaN
                            /\ exists cast, Csv.Cast r = Some cast
                                            /\ PyStr.substring_of SUBJECT cast).
  { intros r. rewrite kept_rows_as_filter, filter_In, kept_row_iff. tauto. }
  split.
  - intros [movies H]. destruct (normalize_Ok df movies H) as [Hload Hrows].
    split; [now apply load_data_Ok_iff |].
    intros r Hin Hcast Hyear.
    assert (Hr : In r (dropna_Year (subject_rows df))) by (apply Hkept; tauto).
    split.
    + pose proof (Forall2_Forall_and _ _ _ _ Hrows) as Hy.
      rewrite Forall_forall in Hy. destruct (Hy r Hr) as [b Hb]. now exists (Year_int b).
    + pose proof (normalize_Ok_genres df movies H) as Hg.
      rewrite Forall_forall in Hg. exact (Hg r Hr).
  - intros [Hcase Hall]. unfold normalize.
    rewrite (proj2 (load_data_Ok_iff df) Hcase). simpl.
    assert (HF : Forall (fun r => (exists y, astype_int (Csv.Year r) = Ok y)
                                  /\ (exists g, Csv.Genre r = Some g))
                        (dropna_Year (subject_rows df))).
    { apply Forall_forall. intros r Hr. apply Hkept in Hr as (Hin & Hy & Hc).
      now apply Hall. }
    destruct (mapM_Ok_of_Forall (fun r => astype_int (Csv.Year r))
                                (dropna_Year (subject_rows df))) as [ys ->].
    { apply (Forall_impl _ (P := fun r => (exists y, astype_int (Csv.Year r) = Ok y)
                                         /\ (exists g, Csv.Genre r = Some g)));
        [tauto | exact HF]. }
    destruct (mapM_Ok_of_Forall (fun r => assign_motif (Csv.Genre r))
                                (dropna_Year (subject_rows df))) as [ms ->].
    { apply (Forall_impl _ (P := fun r => (exists y, astype_int (Csv.Year r) = Ok y)
                                         /\ (exists g, Csv.Genre r = Some g)));
        [| exact HF].
      intros r [_ [g ->]]. apply assign_motif_string_total. }
    simpl. eauto.
Qed.

Example normalize_skips_missing_years :
  normalize [Sample.row_without_year; Sample.face_off]
  = Ok [mkNormalized Sample.face_off 2007 "Action"]
  /\ normalize [Sample.row_without_cast] = Raise AttributeError
  /\ normalize [] = Ok [].
Proof. repeat split. Qed.

Lemma assign_motif_loop_range (items : list (string * string))
      (c : option string) (label : string) :
  assign_motif_loop items c = Ok label ->
  label = "Other" \/ In label (map snd items).
Proof.
  induction items as [|[key lab] items IH]; simpl.
  - intros H. injection H as <-. now left.
  - destruct (py_in key c) as [[|]|e]; simpl; [| | discriminate].
    + intros H. injection H as <-. right. now left.
    + intros H. destruct (IH H) as [-> | Hin]; [now left | right; now right].
Qed.

(** X2. After normalization every Motif is one of the eight labels or
    "Other", hence never the sentinel "All"; the choices offered by the
    motif selector are "All" followed by motifs of the frame. *)
Theorem normalized_motif_range
        (df : list Csv.Row) (movies : list Movie)
        (Hnorm : normalize df = Ok movies) :
  Forall (fun m => In (Motif m) ("Other" :: candidate_labels)
                   /\ Motif m <> "All") movies
  /\ (forall x, In x (top_motifs movies) <->
                x = "All" \/ In x (map Motif movies)).
Proof.
  split.
  - assert (H : Forall (fun m => In (Motif m) ("Other" :: candidate_labels)) movies).
    { apply (Forall2_Forall_r _ _ _ _ (proj2 (normalize_Ok df movies Hnorm))).
      intros r m (_ & Hm & _).
      apply assign_motif_loop_range in Hm as [-> | Hin]; [now left | right].
      exact Hin. }
    apply (Forall_impl _ (P := fun m => In (Motif m) ("Other" :: candidate_labels)));
      [| exact H].
    intros m Hin. split; [exact Hin |].
    intros E. rewrite E in Hin. simpl in Hin.
    repeat (destruct Hin as [Hin | Hin]; [discriminate |]). contradiction.
  - intros x. unfold top_motifs, unique. simpl.
    rewrite SortFacts.stable_sort_In.
    destruct (CountFacts.tally_spec String.eqb TopFacts.string_eqb_eq
                                    (map Motif movies)) as (_ & Hkeys & _).
    rewrite Hkeys. split; intros [H | H]; auto.
Qed.

Lemma normalized_motif_range_witness :
  normalize [Sample.face_off; Sample.longlegs]
  = Ok [mkNormalized Sample.face_off 2007 "Action";
        mkNormalized Sample.longlegs 2024 "Other"]
  /\ Forall (fun m => In (Motif m) ("Other" :: candidate_labels)
                      /\ Motif m <> "All")
            [mkNormalized Sample.face_off 2007 "Action";
             mkNormalized Sample.longlegs 2024 "Other"]
  /\ (forall x, In x (top_motifs [mkNormalized Sample.face_off 2007 "Action";
                                  mkNormalized Sample.longlegs 2024 "Other"]) <->
                x = "All" \/ In x (map Motif
                                       [mkNormalized Sample.face_off 2007 "Action";
                                        mkNormalized Sample.longlegs 2024 "Other"])).
Proof.
  split; [reflexivity |].
  apply (normalized_motif_range [Sample.face_off; Sample.longlegs]).
  reflexivity.
Defined.

(** X3. A numeric Year cell that int64 can hold is always accepted by
    the integer cast, which cuts the fraction toward zero: the floor of
    a year that is not negative, the ceiling of one that is not
    positive. *)
Theorem astype_int_truncates
        (q : Q)
        (Hrange : (inject_Z INT64_MIN <= q /\ q <= inject_Z INT64_MAX)%Q) :
  exists z, astype_int (YNum q) = Ok z
            /\ ((0 <= q)%Q -> z = Qfloor q)
            /\ ((q <= 0)%Q -> z = Qceiling q).
Proof.
  destruct Hrange as [Hlo Hhi].
  destruct (trunc_toward_zero q) as [Hpos Hneg].
  assert (H1 : (0 <= q)%Q -> trunc q = Qfloor q).
  { intros H. apply Hpos. unfold Qle in H. simpl in H. lia. }
  assert (H2 : (q <= 0)%Q -> trunc q = Qceiling q).
  { intros H. apply Hneg. unfold Qle in H. simpl in H. lia. }
  assert (Hin : in_int64 (trunc q) = true).
  { unfold in_int64. apply andb_true_iff. rewrite !Z.leb_le.
    destruct (Qlt_le_dec q 0) as [Hlt | Hge].
    - rewrite H2 by now apply Qlt_le_weak. split.
      + rewrite <- (Qceiling_Z INT64_MIN). now apply Qceiling_resp_le.
      + apply Z.le_trans with 0%Z; [| unfold INT64_MAX; lia].
        rewrite <- (Qceiling_Z 0). apply Qceiling_resp_le. now apply Qlt_le_weak.
    - rewrite H1 by exact Hge. split.
      + apply Z.le_trans with 0%Z; [unfold INT64_MIN; lia |].
        rewrite <- (Qfloor_Z 0). now apply Qfloor_resp_le.
      + rewrite <- (Qfloor_Z INT64_MAX). now apply Qfloor_resp_le. }
  exists (trunc q). split.
  - simpl. unfold float_to_int64. now rewrite Hin.
  - split; assumption.
Qed.

Lemma astype_int_truncates_witness :
  (inject_Z INT64_MIN <= 20249 # 10 /\ 20249 # 10 <= inject_Z INT64_MAX)%Q
  /\ exists z, astype_int (YNum (20249 # 10)) = Ok z
               /\ ((0 <= 20249 # 10)%Q -> z = Qfloor (20249 # 10))
               /\ ((20249 # 10 <= 0)%Q -> z = Qceiling (20249 # 10)).
Proof.
  assert (H : (inject_Z INT64_MIN <= 20249 # 10 /\ 20249 # 10 <= inject_Z INT64_MAX)%Q).
  { split; unfold Qle; simpl; lia. }
  split; [exact H |].
  apply (astype_int_truncates (20249 # 10) H).
Defined.

(* ================================================================== *)
(** * Further properties: sidebar and filter *)

Lemma StronglySorted_NoDup_strict {A B : Type} (f : A -> B) (R : A -> A -> Prop)
      (l : list A) :
  StronglySorted R l -> NoDup (map f l) ->
  StronglySorted (fun a b => R a b /\ f a <> f b) l.
Proof.
  induction 1 as [|x l Hs IH Hx]; simpl; intros Hnd; constructor.
  - apply IH. now apply NoDup_cons_iff in Hnd.
  - apply NoDup_cons_iff in Hnd as [Hnin _].
    rewrite Forall_forall in *. intros y Hy. split; [now apply Hx |].
    intros E. apply Hnin. rewrite E. now apply in_map.
Qed.

Lemma Zltb_sorted_le (l : list Z) :
  StronglySorted Z.le (Pandas.stable_sort Z.ltb l).
Proof.
  apply (SortFacts.StronglySorted_weaken
           (Pandas.ranked Z.ltb (fun _ _ => True))).
  - intros a b _ _ [H _]. apply Z.ltb_ge in H. exact H.
  - apply SortFacts.stable_sort_sorted.
    + intros a b H. apply Z.ltb_lt in H. apply Z.ltb_ge. lia.
    + intros a b c H. apply Z.ltb_lt in H. rewrite !Z.ltb_lt. lia.
    + induction l; constructor; [assumption | now apply Forall_forall].
Qed.

Lemma Z_eqb_eq (x y : Z) : Z.eqb x y = true <-> x = y.
Proof. apply Z.eqb_eq. Qed.

Lemma years_In (movies : list Movie) (y : Z) :
  In y (years movies) <-> In y (map Year_int movies).
Proof.
  unfold years, unique. rewrite SortFacts.stable_sort_In.
  now destruct (CountFacts.tally_spec Z.eqb Z_eqb_eq (map Year_int movies))
    as (_ & Hkeys & _).
Qed.

(** X4. [years] lists the years of the frame, each once, in strictly
    increasing order. *)
Theorem years_spec (movies : list Movie) :
  (forall y, In y (years movies) <-> exists m, In m movies /\ Year_int m = y)
  /\ StronglySorted Z.lt (years movies).
Proof.
  split.
  - intros y. rewrite years_In, in_map_iff. split; intros (m & H1 & H2); eauto.
  - apply (SortFacts.StronglySorted_weaken (fun a b => (a <= b)%Z /\ id a <> id b)).
    { intros a b _ _ [H1 H2]. unfold id in H2. lia. }
    apply StronglySorted_NoDup_strict; [apply Zltb_sorted_le |].
    rewrite map_id. unfold years, unique.
    apply (Permutation_NoDup
             (Permutation_sym (SortFacts.stable_sort_perm Z.ltb _))).
    now destruct (CountFacts.tally_spec Z.eqb Z_eqb_eq (map Year_int movies)).
Qed.

Lemma fold_min_spec (t : list Z) (x : Z) :
  In (fold_left Z.min t x) (x :: t)
  /\ Forall (fun y => (fold_left Z.min t x <= y)%Z) (x :: t).
Proof.
  revert x; induction t as [|y t IH]; intros x; simpl.
  - split; [now left | constructor; [lia | constructor]].
  - destruct (IH (Z.min x y)) as [Hin Hall]. inversion Hall as [|? ? Hm Ht]; subst.
    split.
    + destruct Hin as [Hin | Hin]; [| right; now right].
      rewrite <- Hin. destruct (Z.min_spec x y) as [[_ ->] | [_ ->]]; simpl; auto.
    + constructor; [lia |]. constructor; [lia | exact Ht].
Qed.

Lemma fold_max_spec (t : list Z) (x : Z) :
  In (fold_left Z.max t x) (x :: t)
  /\ Forall (fun y => (y <= fold_left Z.max t x)%Z) (x :: t).
Proof.
  revert x; induction t as [|y t IH]; intros x; simpl.
  - split; [now left | constructor; [lia | constructor]].
  - destruct (IH (Z.max x y)) as [Hin Hall]. inversion Hall as [|? ? Hm Ht]; subst.
    split.
    + destruct Hin as [Hin | Hin]; [| right; now right].
      rewrite <- Hin. destruct (Z.max_spec x y) as [[_ ->] | [_ ->]]; simpl; auto.
    + constructor; [lia |]. constructor; [lia | exact Ht].
Qed.

Lemma slider_bounds_Ok (movies : list Movie) (lo hi : Z) :
  slider_bounds movies = Ok (lo, hi) ->
  Forall (fun m => (lo <= Year_int m <= hi)%Z) movies
  /\ In lo (map Year_int movies) /\ In hi (map Year_int movies).
Proof.
  unfold slider_bounds. destruct (years movies) as [|x t] eqn:E; simpl; [discriminate |].
  intros H. injection H as <- <-.
  destruct (fold_min_spec t x) as [Hmin_in Hmin], (fold_max_spec t x) as [Hmax_in Hmax].
  rewrite <- E in *. rewrite Forall_forall in Hmin, Hmax.
  split; [| split; now apply years_In].
  apply Forall_forall. intros m Hm.
  assert (Hy : In (Year_int m) (years movies))
    by (apply years_In; now apply in_map).
  split; [now apply Hmin | now apply Hmax].
Qed.

(** X5. The slider bounds exist exactly for a frame that is not empty
    ([ValueError] otherwise); they are years of the frame, and every
    year of the frame lies between them. *)
Theorem slider_bounds_spec (movies : list Movie) :
  (slider_bounds movies = Raise ValueError <-> movies = [])
  /\ (forall lo hi,
         slider_bounds movies = Ok (lo, hi) ->
         Forall (fun m => (lo <= Year_int m <= hi)%Z) movies
         /\ In lo (map Year_int movies) /\ In hi (map Year_int movies)).
Proof.
  split; [| apply slider_bounds_Ok].
  split.
  - destruct movies as [|m movies]; [reflexivity |].
    unfold slider_bounds. destruct (years (m :: movies)) as [|x t] eqn:E; simpl.
    + exfalso. assert (H : In (Year_int m) (years (m :: movies)))
        by (apply years_In; now left).
      now rewrite E in H.
    + discriminate.
  - intros ->. reflexivity.
Qed.

Lemma filter_all {A : Type} (f : A -> bool) (l : list A) :
  Forall (fun x => f x = true) l -> filter f l = l.
Proof. induction 1 as [|x l Hx _ IH]; simpl; [| rewrite Hx, IH]; reflexivity. Qed.

(** X6. With the year range set to the slider bounds and the motif to
    "All", which is how the widgets start, the filter returns the whole
    frame. *)
Theorem default_selection_keeps_all
        (movies : list Movie) (lo hi : Z)
        (Hbounds : slider_bounds movies = Ok (lo, hi)) :
  apply_filters movies {| yr := (lo, hi); selected_motif := "All" |} = movies.
Proof.
  destruct (slider_bounds_Ok movies lo hi Hbounds) as [Hall _].
  unfold apply_filters. simpl. apply filter_all.
  apply (Forall_impl _ (P := fun m => (lo <= Year_int m <= hi)%Z)); [| exact Hall].
  intros m [H1 H2]. apply andb_true_iff. split; now apply Z.leb_le.
Qed.

Lemma default_selection_keeps_all_witness :
  slider_bounds Sample.three_movies = Ok (2007, 2024)%Z
  /\ apply_filters Sample.three_movies
                   {| yr := (2007, 2024)%Z; selected_motif := "All" |}
     = Sample.three_movies.
Proof.
  split; [reflexivity |].
  apply (default_selection_keeps_all Sample.three_movies 2007 2024).
  reflexivity.
Defined.

Lemma apply_filters_as_filter (movies : list Movie) (sel : Selection) :
  apply_filters movies sel
  = filter (fun m => ((fst (yr sel) <=? Year_int m)%Z
                      && (Year_int m <=? snd (yr sel))%Z)
                     && (String.eqb (selected_motif sel) "All"
                         || String.eqb (Motif m) (selected_motif sel)))
           movies.
Proof.
  unfold apply_filters. destruct (String.eqb (selected_motif sel) "All"); simpl.
  - apply filter_ext. intros m. now rewrite andb_true_r.
  - rewrite filter_filter. reflexivity.
Qed.

Lemma apply_filters_mem (movies : list Movie) (sel : Selection) (m : Movie) :
  In m (apply_filters movies sel) <->
  In m movies
  /\ (fst (yr sel) <= Year_int m <= snd (yr sel))%Z
  /\ (selected_motif sel = "All" \/ Motif m = selected_motif sel).
Proof.
  rewrite apply_filters_as_filter, filter_In.
  rewrite !andb_true_iff, orb_true_iff, !Z.leb_le, !String.eqb_eq. tauto.
Qed.

(** X7. A row is kept by the filter exactly when it is a row of the
    frame whose year lies in the range, both ends included, and whose
    Motif is the selected one unless the selection is "All". *)
Theorem apply_filters_In (movies : list Movie) (sel : Selection) (m : Movie) :
  In m (apply_filters movies sel) <->
  In m movies
  /\ (fst (yr sel) <= Year_int m <= snd (yr sel))%Z
  /\ (selected_motif sel = "All" \/ Motif m = selected_motif sel).
Proof.
  rewrite apply_filters_as_filter, filter_In.
  rewrite !andb_true_iff, orb_true_iff, !Z.leb_le, !String.eqb_eq. tauto.
Qed.

(** X8. Two selections applied one after the other give the same frame
    in either order. *)
Theorem apply_filters_commute (movies : list Movie) (s1 s2 : Selection) :
  apply_filters (apply_filters movies s1) s2
  = apply_filters (apply_filters movies s2) s1.
Proof.
  rewrite !apply_filters_as_filter, !filter_filter.
  apply filter_ext. intros m. apply andb_comm.
Qed.


(* ================================================================== *)
(** * Further properties: counting aggregates *)

Lemma bump_total {A : Type} (eqb : A -> A -> bool) (x : A) (tbl : list (A * nat)) :
  list_sum (map snd (Pandas.bump eqb x tbl)) = S (list_sum (map snd tbl)).
Proof.
  induction tbl as [|[k c] t IH]; simpl; [reflexivity |].
  destruct (eqb k x); simpl; [reflexivity | rewrite IH; lia].
Qed.

Lemma bump_weak {A : Type} (eqb : A -> A -> bool) (x : A) (tbl : list (A * nat))
      (k : A) (c : nat) :
  In (k, c) (Pandas.bump eqb x tbl) ->
  (k = x /\ 1 <= c) \/ (exists c', In (k, c') tbl /\ c' <= c).
Proof.
  induction tbl as [|[k0 c0] t IH]; simpl.
  - intros [H | []]. injection H as <- <-. left. split; [reflexivity | lia].
  - destruct (eqb k0 x); simpl.
    + intros [H | H].
      * injection H as <- <-. right. exists c0. split; [now left | lia].
      * right. exists c. split; [now right | lia].
    + intros [H | H].
      * injection H as <- <-. right. exists c0. split; [now left | lia].
      * destruct (IH H) as [Hx | (c' & Hin & Hle)]; [now left |].
        right. exists c'. split; [now right | exact Hle].
Qed.

(** Whatever the equality test, the counts add up to the number of
    cells, and each entry is a cell met at least once. *)
Lemma tally_total {A : Type} (eqb : A -> A -> bool) (l : list A) :
  list_sum (map snd (Pandas.tally eqb l)) = List.length l
  /\ (forall k c, In (k, c) (Pandas.tally eqb l) -> In k l /\ 1 <= c).
Proof.
  induction l as [|x l [IHsum IHin]] using rev_ind; [split; [reflexivity | intros k c []] |].
  rewrite CountFacts.tally_snoc. split.
  - rewrite bump_total, IHsum, length_app. simpl. lia.
  - intros k c H. apply bump_weak in H as [[-> Hc] | (c' & Hin & Hle)].
    + split; [apply in_or_app; right; now left | exact Hc].
    + destruct (IHin _ _ Hin) as [Hk Hc]. split; [apply in_or_app; now left | lia].
Qed.

Lemma list_sum_perm (l l' : list nat) :
  Permutation l l' -> list_sum l = list_sum l'.
Proof. induction 1; simpl; lia. Qed.

Lemma stable_sort_total {A : Type} (before : A * nat -> A * nat -> bool)
      (l : list (A * nat)) :
  list_sum (map snd (Pandas.stable_sort before l)) = list_sum (map snd l).
Proof.
  apply list_sum_perm, Permutation_map, SortFacts.stable_sort_perm.
Qed.

Lemma counts_In (filtered : list Movie) (y : Z) (c : nat) :
  In (y, c) (counts filtered) <->
  In y (map Year_int filtered)
  /\ c = Pandas.count Z.eqb y (map Year_int filtered).
Proof.
  destruct (CountFacts.tally_spec Z.eqb Z_eqb_eq (map Year_int filtered))
    as (_ & Hkeys & Hcount & _).
  unfold counts. rewrite SortFacts.stable_sort_In. split.
  - intros H. split; [| now apply Hcount].
    apply Hkeys. apply (in_map fst) in H. exact H.
  - intros [Hy ->]. apply Hkeys in Hy.
    apply in_map_iff in Hy as ([y' c] & Hfst & Hin). simpl in Hfst; subst y'.
    now rewrite <- (Hcount _ _ Hin).
Qed.

Lemma counts_sum (filtered : list Movie) :
  list_sum (map snd (counts filtered)) = List.length filtered.
Proof.
  unfold counts. rewrite stable_sort_total.
  destruct (tally_total Z.eqb (map Year_int filtered)) as [-> _].
  apply length_map.
Qed.

(** X10. The yearly counts hold one entry per year of the frame, with
    the number of rows of that year, in strictly increasing order of
    the year; the counts add up to the number of rows. *)
Theorem counts_spec (filtered : list Movie) :
  (forall y c,
      In (y, c) (counts filtered) <->
      In y (map Year_int filtered)
      /\ c = Pandas.count Z.eqb y (map Year_int filtered))
  /\ StronglySorted (fun a b => (fst a < fst b)%Z) (counts filtered)
  /\ list_sum (map snd (counts filtered)) = List.length filtered.
Proof.
  split; [intros y c; apply counts_In |]. split; [| apply counts_sum].
  unfold counts.
  apply (SortFacts.StronglySorted_weaken
           (fun a b : Z * nat => (fst a <= fst b)%Z /\ fst a <> fst b)).
  { intros a b _ _ [H1 H2]. lia. }
  apply StronglySorted_NoDup_strict.
  - apply (SortFacts.StronglySorted_weaken
             (Pandas.ranked (fun a b : Z * nat => (fst a <? fst b)%Z)
                            (fun _ _ => True))).
    + intros a b _ _ [H _]. apply Z.ltb_ge in H. exact H.
    + apply SortFacts.stable_sort_sorted.
      * intros a b H. apply Z.ltb_lt in H. apply Z.ltb_ge. lia.
      * intros a b c H. apply Z.ltb_lt in H. rewrite !Z.ltb_lt. lia.
      * generalize (Pandas.tally Z.eqb (map Year_int filtered)).
        induction l; constructor; [assumption | now apply Forall_forall].
  - apply (Permutation_NoDup
             (Permutation_map fst
                (Permutation_sym (SortFacts.stable_sort_perm _ _)))).
    now destruct (CountFacts.tally_spec Z.eqb Z_eqb_eq (map Year_int filtered)).
Qed.

Lemma Qltb_asym (a b : Q) : Qltb a b = true -> Qltb b a = false.
Proof.
  intros H. apply Qltb_lt in H. destruct (Qltb b a) eqn:E; [| reflexivity].
  apply Qltb_lt in E. exfalso. apply (Qlt_irrefl a). now apply Qlt_trans with b.
Qed.

Lemma Qltb_ge (a b : Q) : Qltb a b = false -> (b <= a)%Q.
Proof.
  intros H. apply Qnot_lt_le. intros Hlt. apply Qltb_lt in Hlt. congruence.
Qed.

(** X11. The rating distribution is listed by rating, in order that
    never decreases; every entry is a rating of some row, met at least
    once, and the counts add up to the number of rows with a rating. *)
Theorem rating_counts_spec (filtered : list Movie) :
  list_sum (map snd (rating_counts filtered))
  = List.length (Pandas.dropna (map Rating filtered))
  /\ StronglySorted (fun a b => (fst a <= fst b)%Q) (rating_counts filtered)
  /\ (forall r c, In (r, c) (rating_counts filtered) ->
                  In (Some r) (map Rating filtered) /\ 1 <= c).
Proof.
  unfold rating_counts, Pandas.value_counts. split; [| split].
  - rewrite !stable_sort_total. apply tally_total.
  - apply (SortFacts.StronglySorted_weaken
             (Pandas.ranked (fun a b : Q * nat => Qltb (fst a) (fst b))
                            (fun _ _ => True))).
    + intros a b _ _ [H _]. now apply Qltb_ge.
    + apply SortFacts.stable_sort_sorted.
      * intros a b. apply Qltb_asym.
      * intros a b c. rewrite !Qltb_lt. intros H.
        destruct (Qlt_le_dec (fst a) (fst b)) as [Hlt | Hle]; [now left | right].
        now apply Qle_lt_trans with (fst a).
      * generalize (Pandas.stable_sort Pandas.count_gt
                      (Pandas.tally Qeq_bool (Pandas.dropna (map Rating filtered)))).
        induction l; constructor; [assumption | now apply Forall_forall].
  - intros r c H. apply SortFacts.stable_sort_In in H.
    apply SortFacts.stable_sort_In in H.
    apply tally_total in H as [Hin Hc]. split; [| exact Hc].
    now apply CountFacts.dropna_In.
Qed.

(** X12. [director_df] holds at most five entries, one per director;
    each carries the number of rows of that director, rows without a
    Director counting for nobody; the entries are listed by decreasing
    count and, at equal counts, in order of first appearance in the
    frame, and a director left out is outranked by each entry. *)
Theorem director_df_spec (filtered : list Movie) :
  let names := Pandas.dropna (map Director filtered) in
  let res := director_df filtered in
  List.length res <= 5
  /\ NoDup (map fst res)
  /\ (forall d c, In (d, c) res ->
                  In (Some d) (map Director filtered)
                  /\ c = Pandas.count String.eqb d names /\ 1 <= c)
  /\ StronglySorted (Pandas.outranks String.eqb names) res
  /\ (forall d, In (Some d) (map Director filtered) ->
                ~ In d (map fst res) ->
                List.length res = 5
                /\ Forall (fun a => Pandas.outranks String.eqb names a
                                      (d, Pandas.count String.eqb d names)) res).
Proof.
  cbv zeta. unfold director_df.
  destruct (TopFacts.nlargest_value_counts_spec
              String.eqb TopFacts.string_eqb_eq 5 (map Director filtered))
    as (Hlen & Hnd & Hin & Hsorted & Hout).
  split; [exact Hlen |]. split; [exact Hnd |].
  split; [| split; [exact Hsorted |]].
  - intros d c H. destruct (Hin d c H) as [Hd ->].
    split; [now apply CountFacts.dropna_In |]. split; [reflexivity |].
    apply (CountFacts.count_in String.eqb TopFacts.string_eqb_eq). exact Hd.
  - intros d Hd. apply Hout. now apply CountFacts.dropna_In.
Qed.

(* ================================================================== *)
(** * Further properties: statistics *)

Lemma dropna_nil {A : Type} (s : list (option A)) :
  Pandas.dropna s = [] <-> Forall (fun c => c = None) s.
Proof.
  induction s as [|[x|] s IH]; simpl.
  - split; [constructor | reflexivity].
  - split; [discriminate | intros H; inversion H; discriminate].
  - rewrite IH. split; [now constructor | intros H; now inversion H].
Qed.

Lemma fold_Qmin_spec (t : list Q) (x : Q) :
  let r := fold_left (fun a b => if Qltb b a then b else a) t x in
  In r (x :: t) /\ Forall (fun y => (r <= y)%Q) (x :: t).
Proof.
  revert x; induction t as [|y t IH]; intros x; simpl.
  - split; [now left | constructor; [apply Qle_refl | constructor]].
  - destruct (IH (if Qltb y x then y else x)) as [Hin Hall].
    inversion Hall as [|? ? Hm Ht]; subst. split.
    + destruct Hin as [Hin | Hin]; [| right; now right].
      rewrite <- Hin. destruct (Qltb y x); simpl; auto.
    + destruct (Qltb y x) eqn:E.
      * apply Qltb_lt in E. constructor; [| now constructor].
        apply Qle_trans with y; [exact Hm | now apply Qlt_le_weak].
      * apply Qltb_ge in E. constructor; [exact Hm |]. constructor; [| exact Ht].
        now apply Qle_trans with x.
Qed.

Lemma fold_Qmax_spec (t : list Q) (x : Q) :
  let r := fold_left (fun a b => if Qltb a b then b else a) t x in
  In r (x :: t) /\ Forall (fun y => (y <= r)%Q) (x :: t).
Proof.
  revert x; induction t as [|y t IH]; intros x; simpl.
  - split; [now left | constructor; [apply Qle_refl | constructor]].
  - destruct (IH (if Qltb x y then y else x)) as [Hin Hall].
    inversion Hall as [|? ? Hm Ht]; subst. split.
    + destruct Hin as [Hin | Hin]; [| right; now right].
      rewrite <- Hin. destruct (Qltb x y); simpl; auto.
    + destruct (Qltb x y) eqn:E.
      * apply Qltb_lt in E. constructor; [| now constructor].
        apply Qle_trans with y; [now apply Qlt_le_weak | exact Hm].
      * apply Qltb_ge in E. constructor; [exact Hm |]. constructor; [| exact Ht].
        now apply Qle_trans with x.
Qed.

(** X13. The three statistics of a column are NaN together, exactly
    when every cell is NaN (in particular on the empty column);
    otherwise the minimum and the maximum are cells of the column that
    bound every cell that is not NaN. *)
Theorem describe_spec (s : list (option Q)) :
  (avg (describe s) = None <-> Forall (fun c => c = None) s)
  /\ (smin (describe s) = None <-> Forall (fun c => c = None) s)
  /\ (smax (describe s) = None <-> Forall (fun c => c = None) s)
  /\ (forall lo, smin (describe s) = Some lo ->
                 In (Some lo) s /\ forall x, In (Some x) s -> (lo <= x)%Q)
  /\ (forall hi, smax (describe s) = Some hi ->
                 In (Some hi) s /\ forall x, In (Some x) s -> (x <= hi)%Q).
Proof.
  unfold describe, mean, series_min, series_max; simpl.
  rewrite <- dropna_nil.
  destruct (Pandas.dropna s) as [|x t] eqn:E.
  - repeat split; try tauto; discriminate.
  - split; [split; discriminate |]. split; [split; discriminate |].
    split; [split; discriminate |]. split.
    + intros lo H. injection H as <-.
      destruct (fold_Qmin_spec t x) as [Hin Hall]. rewrite <- E in Hin, Hall.
      split; [now apply CountFacts.dropna_In |].
      intros y Hy. apply CountFacts.dropna_In in Hy.
      rewrite Forall_forall in Hall. now apply Hall.
    + intros hi H. injection H as <-.
      destruct (fold_Qmax_spec t x) as [Hin Hall]. rewrite <- E in Hin, Hall.
      split; [now apply CountFacts.dropna_In |].
      intros y Hy. apply CountFacts.dropna_In in Hy.
      rewrite Forall_forall in Hall. now apply Hall.
Qed.

(* ================================================================== *)
(** * Further properties: splitting *)

(** X14. Splitting a cell on ", " loses nothing: there is at least one
    token, and the tokens joined again with ", " give the cell back. *)
Theorem split_comma_join (text : string) :
  PyStr.split ", " text <> []
  /\ String.concat ", " (PyStr.split ", " text) = text.
Proof.
  split.
  - apply PyStrFacts.split_from_nonempty.
  - apply PyStrFacts.split_join. discriminate.
Qed.

(* ================================================================== *)
(** * Further properties: posters and grids *)

Lemma poster_or_default_not_blank (url : option string) :
  PyStr.strip (poster_or_default url) <> EmptyString.
Proof.
  destruct url as [u|]; simpl; [| vm_compute; discriminate].
  destruct (String.eqb (PyStr.strip u) EmptyString) eqn:E.
  - vm_compute; discriminate.
  - now apply String.eqb_neq.
Qed.

Lemma nlargest_Rating_incl (n : nat) (filtered : list Movie) (m : Movie) :
  In m (nlargest_Rating n filtered) -> In m filtered.
Proof.
  unfold nlargest_Rating. intros H.
  apply (SortFacts.stable_sort_In
           (fun a b => rating_gt (Rating a) (Rating b)) filtered m).
  rewrite <- (firstn_skipn n (Pandas.stable_sort _ filtered)).
  apply in_or_app. now left.
Qed.

Lemma enumerate_index {A : Type} (l : list A) (idx : nat) (x : A) :
  In (idx, x) (enumerate l) -> idx < List.length l.
Proof.
  intros H. apply enumerate_In in H. apply nth_error_Some. congruence.
Qed.

(** X15. Whatever the selection, the career highlights of a normalized
    frame are at most five, so that each one finds its column among the
    five, and every poster handed to the display is a URL that is not
    blank. *)
Theorem top5_fits_and_has_posters
        (df : list Csv.Row) (movies : list Movie) (sel : Selection)
        (Hnorm : normalize df = Ok movies) :
  List.length (top5 (apply_filters movies sel)) <= 5
  /\ (forall idx row,
         In (idx, row) (enumerate (top5 (apply_filters movies sel))) -> idx < 5)
  /\ Forall (fun row => exists url,
                          lookup "Poster" row = Some (Text url)
                          /\ PyStr.strip url <> EmptyString)
            (top5 (apply_filters movies sel)).
Proof.
  assert (Hlen : List.length (top5 (apply_filters movies sel)) <= 5).
  { unfold top5, nlargest_Rating. rewrite length_map. apply firstn_le_length. }
  split; [exact Hlen |]. split.
  - intros idx row H. apply enumerate_index in H. lia.
  - apply Forall_forall. intros row Hrow. unfold top5 in Hrow.
    apply in_map_iff in Hrow as (x & <- & Hx).
    exists (Poster x). split; [reflexivity |].
    apply nlargest_Rating_incl in Hx. apply apply_filters_mem in Hx as [Hx _].
    pose proof (Forall2_Forall_r _ (fun x => PyStr.strip (Poster x) <> EmptyString)
                  _ _ (proj2 (normalize_Ok df _ Hnorm))) as Hall.
    rewrite Forall_forall in Hall. apply Hall; [| exact Hx].
    intros r y (_ & _ & -> & _). apply poster_or_default_not_blank.
Qed.

Lemma top5_fits_and_has_posters_witness :
  normalize [Sample.face_off; Sample.row_without_year; Sample.con_air]
  = Ok [mkNormalized Sample.face_off 2007 "Action";
        mkNormalized Sample.con_air 1997 "Action"]
  /\ List.length
       (top5 (apply_filters [mkNormalized Sample.face_off 2007 "Action";
                             mkNormalized Sample.con_air 1997 "Action"]
                            {| yr := (1997, 2007)%Z; selected_motif := "All" |}))
     <= 5
  /\ (forall idx row,
         In (idx, row)
            (enumerate
               (top5 (apply_filters [mkNormalized Sample.face_off 2007 "Action";
                                     mkNormalized Sample.con_air 1997 "Action"]
                                    {| yr := (1997, 2007)%Z;
                                       selected_motif := "All" |}))) ->
         idx < 5)
  /\ Forall (fun row => exists url,
                          lookup "Poster" row = Some (Text url)
                          /\ PyStr.strip url <> EmptyString)
            (top5 (apply_filters [mkNormalized Sample.face_off 2007 "Action";
                                  mkNormalized Sample.con_air 1997 "Action"]
                                 {| yr := (1997, 2007)%Z;
                                    selected_motif := "All" |})).
Proof.
  split; [reflexivity |].
  apply (top5_fits_and_has_posters
           [Sample.face_off; Sample.row_without_year; Sample.con_air]).
  reflexivity.
Defined.

(** X16. The filmography keeps, in order, the rows of the frame whose
    Title is not one of the twelve excluded titles; a row without a
    Title is kept. *)
Theorem filtered_filmography_spec (filtered : list Movie) (m : Movie) :
  (In m (filtered_filmography filtered) <->
   In m filtered /\ forall t, Title m = Some t -> ~ In t exclusions)
  /\ (Title m = None -> In m filtered -> In m (filtered_filmography filtered)).
Proof.
  assert (H : In m (filtered_filmography filtered) <->
              In m filtered /\ forall t, Title m = Some t -> ~ In t exclusions).
  { unfold filtered_filmography. rewrite filter_In, negb_true_iff.
    unfold isin. destruct (Title m) as [t|].
    - split.
      + intros [Hin Hex]. split; [exact Hin |].
        intros t' E Ht'. injection E as <-.
        assert (Hc : existsb (String.eqb t) exclusions = true).
        { apply existsb_exists. exists t. split; [exact Ht' | apply String.eqb_refl]. }
        congruence.
      + intros [Hin Hex]. split; [exact Hin |].
        destruct (existsb (String.eqb t) exclusions) eqn:E; [| reflexivity].
        apply existsb_exists in E as (x & Hx & Heq).
        apply String.eqb_eq in Heq as <-. exfalso. now apply (Hex t).
    - split; intros [Hin _]; split; auto. discriminate. }
  split; [exact H |].
  intros Ht Hin. apply H. split; [exact Hin |]. rewrite Ht. discriminate.
Qed.

Lemma firstn_add_skipn {A : Type} (a b : nat) (l : list A) :
  firstn (a + b) l = firstn a l ++ firstn b (skipn a l).
Proof.
  revert l; induction a as [|a IH]; intros l; simpl; [reflexivity |].
  destruct l as [|x l]; simpl; [now rewrite firstn_nil | now rewrite IH].
Qed.

Lemma iloc_five {A : Type} (i : nat) (l : list A) :
  iloc i (i + 5) l = firstn 5 (skipn i l).
Proof. unfold iloc. now replace (i + 5 - i) with 5 by lia. Qed.

Lemma rows_prefix {A : Type} (frame : list A) (n : nat) :
  List.concat (map (fun i => iloc i (i + 5) frame) (map (fun k => k * 5) (seq 0 n)))
  = firstn (n * 5) frame.
Proof.
  induction n as [|n IH]; [reflexivity |].
  replace (S n * 5) with (n * 5 + 5) by lia.
  rewrite firstn_add_skipn, seq_S, !map_app, concat_app, IH.
  cbn [map List.concat Nat.add]. now rewrite iloc_five, app_nil_r.
Qed.

Lemma rows_count_bounds (n : nat) :
  n <= ((n + 5 - 1) / 5) * 5 /\ forall k, k < (n + 5 - 1) / 5 -> k * 5 < n.
Proof.
  pose proof (Nat.div_mod_eq (n + 5 - 1) 5) as Hdm.
  pose proof (Nat.mod_upper_bound (n + 5 - 1) 5 ltac:(lia)) as Hub.
  split; [lia |]. intros k Hk. nia.
Qed.

(** X17. The grid rows cut the frame without losing or repeating a
    film: put end to end they give the frame back; each row holds
    between one and five films, so that every film finds its column
    among the five; an empty frame gives no row. *)
Theorem rows_spec {A : Type} (frame : list A) :
  List.concat (rows frame) = frame
  /\ Forall (fun row => 1 <= List.length row <= 5) (rows frame)
  /\ (forall row idx x, In row (rows frame) -> In (idx, x) (enumerate row) -> idx < 5)
  /\ List.length (rows frame) = (List.length frame + 4) / 5.
Proof.
  destruct (rows_count_bounds (List.length frame)) as [Hcover Hstart].
  assert (Hrows : Forall (fun row => 1 <= List.length row <= 5) (rows frame)).
  { apply Forall_forall. intros row Hrow. unfold rows, py_range in Hrow.
    apply in_map_iff in Hrow as (i & <- & Hi).
    apply in_map_iff in Hi as (k & <- & Hk). apply in_seq in Hk.
    rewrite iloc_five, length_firstn, length_skipn.
    specialize (Hstart k ltac:(lia)). lia. }
  split; [| split; [exact Hrows | split]].
  - unfold rows, py_range. rewrite rows_prefix. now apply firstn_all2.
  - intros row idx x Hrow Hidx. apply enumerate_index in Hidx.
    rewrite Forall_forall in Hrows. specialize (Hrows row Hrow). lia.
  - unfold rows, py_range. rewrite !length_map, length_seq.
    now replace (List.length frame + 5 - 1) with (List.length frame + 4) by lia.
Qed.

Example rows_of_seven :
  rows [1; 2; 3; 4; 5; 6; 7] = [[1; 2; 3; 4; 5]; [6; 7]]
  /\ rows (@nil nat) = [] /\ rows [1; 2; 3; 4; 5] = [[1; 2; 3; 4; 5]].
Proof. repeat split. Qed.

(* ================================================================== *)
(** * Further properties: how the steps compose *)

(** X18. [co_stars_df] holds at most five entries, one per name, listed
    by decreasing number of films and, at equal numbers, in order of
    first appearance among the cast tokens other than the subject's
    name; a co-star left out is outranked by each of the five. *)
Theorem co_stars_ranking (filtered : list Movie) :
  let names := filter (fun x => negb (String.eqb x SUBJECT))
                      (tokens (map Cast filtered)) in
  let res := co_stars_df filtered in
  List.length res <= 5
  /\ NoDup (map fst res)
  /\ StronglySorted (Pandas.outranks String.eqb names) res
  /\ (forall name, In name names -> ~ In name (map fst res) ->
                   List.length res = 5
                   /\ Forall (fun a => Pandas.outranks String.eqb names a
                                         (name, Pandas.count String.eqb name names))
                             res).
Proof.
  cbv zeta. unfold co_stars_df.
  destruct (TopFacts.nlargest_value_counts_spec
              String.eqb TopFacts.string_eqb_eq 5
              (filter (Pandas.ne SUBJECT)
                 (Pandas.explode (Pandas.str_split ", " (map Cast filtered)))))
    as (Hlen & Hnd & _ & Hsorted & Hout).
  rewrite dropna_filter_ne, dropna_explode_split in Hsorted, Hout.
  split; [exact Hlen |]. split; [exact Hnd |]. split; [exact Hsorted | exact Hout].
Qed.

(** X19. Every year of the yearly counts of a filtered frame lies in
    the selected range, and every entry of these counts is at most the
    number of rows kept. *)
Theorem counts_within_range (movies : list Movie) (sel : Selection) :
  Forall (fun yc => (fst (yr sel) <= fst yc <= snd (yr sel))%Z
                    /\ snd yc <= List.length (apply_filters movies sel))
         (counts (apply_filters movies sel)).
Proof.
  apply Forall_forall. intros [y c] H. simpl.
  split.
  - apply counts_In in H as [Hy _]. apply in_map_iff in Hy as (m & <- & Hm).
    now apply apply_filters_mem in Hm.
  - rewrite <- (counts_sum (apply_filters movies sel)).
    induction (counts (apply_filters movies sel)) as [|a l IH]; [contradiction |].
    simpl. destruct H as [-> | H]; simpl; [lia |].
    specialize (IH H). lia.
Qed.

Lemma assign_motif_label_in_genre (c : option string) (label : string) :
  assign_motif c = Ok label -> In label candidate_labels ->
  exists g, c = Some g /\ PyStr.substring_of label g.
Proof.
  intros Hrun Hlabel. destruct c as [g|]; [| discriminate]. exists g.
  split; [reflexivity |].
  destruct (assign_motif_loop_first MOTIF_MAP g) as (l & Hl & Hcase).
  unfold assign_motif in Hrun. rewrite Hrun in Hl. injection Hl as <-.
  destruct Hcase as [(done & key & rest & Hsplit & Hin & _) | [-> _]].
  - assert (key = label) as <-; [| exact Hin].
    apply MOTIF_MAP_identity. rewrite Hsplit. apply in_elt.
  - exfalso. simpl in Hlabel.
    repeat (destruct Hlabel as [Hlabel | Hlabel]; [discriminate |]). contradiction.
Qed.

(** X20. When one of the eight labels is selected, every film the
    filter keeps has a Genre string in which that label occurs. *)
Theorem motif_selection_matches_genre
        (df : list Csv.Row) (movies : list Movie) (sel : Selection) (m : Movie)
        (Hnorm : normalize df = Ok movies)
        (Hlabel : In (selected_motif sel) candidate_labels)
        (Hkept : In m (apply_filters movies sel)) :
  exists g, Genre m = Some g /\ PyStr.substring_of (selected_motif sel) g.
Proof.
  apply apply_filters_mem in Hkept as (Hm & _ & [Hall | Hmotif]).
  - exfalso. rewrite Hall in Hlabel. simpl in Hlabel.
    repeat (destruct Hlabel as [Hlabel | Hlabel]; [discriminate |]). contradiction.
  - pose proof (Forall2_Forall_r _
                  (fun x => forall l, Motif x = l -> In l candidate_labels ->
                                      exists g, Genre x = Some g
                                                /\ PyStr.substring_of l g)
                  _ _ (proj2 (normalize_Ok df movies Hnorm))) as Hall.
    assert (Hstep : forall (r : Csv.Row) (x : Movie),
               astype_int (Csv.Year r) = Ok (Year_int x)
               /\ assign_motif (Csv.Genre r) = Ok (Motif x)
               /\ Poster x = poster_or_default (Csv.Poster r)
               /\ Genre x = Csv.Genre r /\ Cast x = Csv.Cast r
               /\ Rating x = Csv.Rating r ->
               forall l, Motif x = l -> In l candidate_labels ->
                         exists g, Genre x = Some g /\ PyStr.substring_of l g).
    { intros r x (_ & Hrun & _ & Hg & _) l <- Hl. rewrite Hg.
      now apply assign_motif_label_in_genre. }
    specialize (Hall Hstep). rewrite Forall_forall in Hall.
    exact (Hall m Hm _ Hmotif Hlabel).
Qed.

Lemma motif_selection_matches_genre_witness :
  normalize [Sample.face_off; Sample.honeymoon]
  = Ok [mkNormalized Sample.face_off 2007 "Action";
        mkNormalized Sample.honeymoon 2007 "Comedy"]
  /\ exists g, Genre (mkNormalized Sample.honeymoon 2007 "Comedy") = Some g
               /\ PyStr.substring_of "Comedy" g.
Proof.
  split; [reflexivity |].
  apply (motif_selection_matches_genre
           [Sample.face_off; Sample.honeymoon]
           [mkNormalized Sample.face_off 2007 "Action";
            mkNormalized Sample.honeymoon 2007 "Comedy"]
           {| yr := (2000, 2010)%Z; selected_motif := "Comedy" |}).
  - reflexivity.
  - simpl. tauto.
  - simpl. left. reflexivity.
Defined.

(** X21. Replacing a missing or blank poster is idempotent: a poster
    that went through the replacement once is left as it is by a second
    pass, and is never blank. *)
Theorem poster_or_default_idempotent (url : option string) :
  poster_or_default (Some (poster_or_default url)) = poster_or_default url
  /\ PyStr.strip (poster_or_default url) <> EmptyString.
Proof.
  split; [| apply poster_or_default_not_blank].
  pose proof (poster_or_default_not_blank url) as H.
  unfold poster_or_default at 1.
  destruct (String.eqb (PyStr.strip (poster_or_default url)) EmptyString) eqn:E;
    [| reflexivity].
  apply String.eqb_eq in E. contradiction.
Qed.
